(** * digital_ingest_notifications: the notification handler

    A shallow embedding of [src/handle_digital_ingest_notifications.py].

    The handler is a Python module: its values are dynamically typed, its
    functions raise exceptions, and everything it does to the outside world
    goes through three collaborators (the parameter store, the Zodiac HTTP
    API and the SNS topic).  The development below follows that shape:

    - [pyval] is the fragment of Python values the module manipulates
      (JSON data, plus a handle for a boto3 client);
    - [M] is a reader/state/error monad: the reader is the behaviour of the
      outside world ([Env]), the state is the [Trace] of effects performed so
      far, and the error is a raised Python exception;
    - every function of the module is defined once, with the module-level
      names it calls taken as parameters, the way Python resolves them at
      call time (and the way [tests/test_notifications.py] patches them).
      [Module Shipped] ties the names to the definitions of the file. *)

From Stdlib Require Import String Ascii List ZArith Bool Lia.
From Stdlib Require Import DecimalString.
Import ListNotations.

Local Open Scope list_scope.
Local Open Scope string_scope.
Set Warnings "-register-all".

(** ** Python values *)

(** Dictionaries keep insertion order and have string keys, which is all the
    module ever builds or receives (JSON objects, message attributes).
    Floating-point numbers do not occur in the handler's logic and are left
    out. *)
Inductive pyval : Type :=
| PNone
| PBool (b : bool)
| PInt (n : Z)
| PStr (s : string)
| PList (l : list pyval)
| PDict (d : list (string * pyval))
| PClient (service : string).

(** Exceptions: the class decides which [except] clause catches it. *)
Inductive exn_class : Type :=
| KeyError
| IndexError
| TypeError
| AttributeError
| ValueError
| HTTPError
| PlainException
| OtherError (name : string).

Record exn : Type := mkExn { exn_cls : exn_class; exn_msg : string }.

Inductive Result (A : Type) : Type :=
| Ok (a : A)
| Err (e : exn).
Arguments Ok {A} a.
Arguments Err {A} e.

Definition is_KeyError (e : exn) : bool :=
  match exn_cls e with KeyError => true | _ => false end.

(** *** Association lists as dicts *)

Fixpoint assoc {V : Type} (k : string) (d : list (string * V)) : option V :=
  match d with
  | [] => None
  | (k', v) :: d' => if String.eqb k k' then Some v else assoc k d'
  end.

(** [d[k] = v]: replaces in place when the key exists, appends otherwise. *)
Fixpoint dict_set {V : Type} (k : string) (v : V) (d : list (string * V))
  : list (string * V) :=
  match d with
  | [] => [(k, v)]
  | (k', v') :: d' =>
      if String.eqb k k' then (k, v) :: d' else (k', v') :: dict_set k v d'
  end.

(** *** Truthiness, equality, [len], iteration *)

Definition py_truthy (v : pyval) : bool :=
  match v with
  | PNone => false
  | PBool b => b
  | PInt n => negb (Z.eqb n 0)
  | PStr s => negb (String.eqb s "")
  | PList l => match l with [] => false | _ => true end
  | PDict d => match d with [] => false | _ => true end
  | PClient _ => true
  end.

(** Python's [==].  [bool] is a subclass of [int]; dictionaries compare
    regardless of order. *)
Fixpoint py_eq (a b : pyval) : bool :=
  match a, b with
  | PNone, PNone => true
  | PBool x, PBool y => Bool.eqb x y
  | PBool x, PInt n => Z.eqb (if x then 1 else 0) n
  | PInt n, PBool x => Z.eqb n (if x then 1 else 0)
  | PInt x, PInt y => Z.eqb x y
  | PStr x, PStr y => String.eqb x y
  | PList x, PList y =>
      (fix go (l1 l2 : list pyval) {struct l1} : bool :=
         match l1, l2 with
         | [], [] => true
         | u :: l1', v :: l2' => py_eq u v && go l1' l2'
         | _, _ => false
         end) x y
  | PDict x, PDict y =>
      Nat.eqb (length x) (length y) &&
      (fix go (d1 : list (string * pyval)) {struct d1} : bool :=
         match d1 with
         | [] => true
         | (k, u) :: d1' =>
             match assoc k y with
             | Some v => py_eq u v && go d1'
             | None => false
             end
         end) x
  | PClient s, PClient t => String.eqb s t
  | _, _ => false
  end.

Definition py_len (v : pyval) : Result nat :=
  match v with
  | PStr s => Ok (String.length s)
  | PList l => Ok (length l)
  | PDict d => Ok (length d)
  | _ => Err (mkExn TypeError "object has no len()")
  end.

Fixpoint chars (s : string) : list pyval :=
  match s with
  | EmptyString => []
  | String c s' => PStr (String c EmptyString) :: chars s'
  end.

(** What a [for] loop or a comprehension iterates over. *)
Definition py_iter (v : pyval) : Result (list pyval) :=
  match v with
  | PList l => Ok l
  | PDict d => Ok (map (fun kv => PStr (fst kv)) d)
  | PStr s => Ok (chars s)
  | _ => Err (mkExn TypeError "object is not iterable")
  end.

(** *** [repr] and [str], as f-strings use them *)

Definition nat_str (n : nat) : string := NilZero.string_of_uint (Nat.to_uint n).
Definition Z_str (n : Z) : string := NilZero.string_of_int (Z.to_int n).

Fixpoint contains_char (c : ascii) (s : string) : bool :=
  match s with
  | EmptyString => false
  | String a s' => Ascii.eqb a c || contains_char c s'
  end.

Definition hex_digit (n : nat) : ascii :=
  match n with
  | 0 => "0" | 1 => "1" | 2 => "2" | 3 => "3" | 4 => "4" | 5 => "5"
  | 6 => "6" | 7 => "7" | 8 => "8" | 9 => "9" | 10 => "a" | 11 => "b"
  | 12 => "c" | 13 => "d" | 14 => "e" | _ => "f"
  end%char.

(** One character of a string literal; [q] is the surrounding quote.  Bytes
    above 127 belong to UTF-8 sequences of printable text and are kept. *)
Definition repr_char (q c : ascii) : string :=
  let n := nat_of_ascii c in
  if Ascii.eqb c "\"%char then "\\"
  else if Ascii.eqb c q then String "\"%char (String q EmptyString)
  else if Nat.eqb n 9 then "\t"
  else if Nat.eqb n 10 then "\n"
  else if Nat.eqb n 13 then "\r"
  else if Nat.ltb n 32 || Nat.eqb n 127 then
    String "\"%char (String "x"%char
      (String (hex_digit (n / 16)) (String (hex_digit (n mod 16)) EmptyString)))
  else String c EmptyString.

Fixpoint repr_chars (q : ascii) (s : string) : string :=
  match s with
  | EmptyString => EmptyString
  | String c s' => repr_char q c ++ repr_chars q s'
  end.

Definition squote : ascii := "'"%char.
Definition dquote : ascii := ascii_of_nat 34.

Definition repr_str (s : string) : string :=
  let q := if contains_char squote s && negb (contains_char dquote s)
           then dquote else squote in
  String q (repr_chars q s ++ String q EmptyString).

Fixpoint join (sep : string) (l : list string) : string :=
  match l with
  | [] => ""
  | [x] => x
  | x :: l' => x ++ sep ++ join sep l'
  end.

Fixpoint py_repr (v : pyval) : string :=
  match v with
  | PNone => "None"
  | PBool true => "True"
  | PBool false => "False"
  | PInt n => Z_str n
  | PStr s => repr_str s
  | PList l =>
      "[" ++ join ", "
        ((fix go (l : list pyval) : list string :=
            match l with [] => [] | x :: l' => py_repr x :: go l' end) l) ++ "]"
  | PDict d =>
      "{" ++ join ", "
        ((fix go (d : list (string * pyval)) : list string :=
            match d with
            | [] => []
            | (k, x) :: d' => (repr_str k ++ ": " ++ py_repr x) :: go d'
            end) d) ++ "}"
  | PClient s => "<botocore.client." ++ s ++ ">"
  end.

(** [str(v)], which is what [f'{v}'] inserts. *)
Definition py_str (v : pyval) : string :=
  match v with
  | PStr s => s
  | _ => py_repr v
  end.

(** *** Subscripts and the [dict.get], [str.rstrip], [str.split] methods *)

Definition key_error (k : pyval) : exn := mkExn KeyError (py_repr k).

Definition list_index (l : list pyval) (i : Z) : Result pyval :=
  let j := if Z.ltb i 0 then (i + Z.of_nat (length l))%Z else i in
  if Z.ltb j 0 then Err (mkExn IndexError "list index out of range")
  else match nth_error l (Z.to_nat j) with
       | Some v => Ok v
       | None => Err (mkExn IndexError "list index out of range")
       end.

(** [o[k]] *)
Definition py_getitem (o k : pyval) : Result pyval :=
  match o with
  | PDict d =>
      match k with
      | PStr s => match assoc s d with
                  | Some v => Ok v
                  | None => Err (key_error k)
                  end
      | PList _ | PDict _ => Err (mkExn TypeError "unhashable type")
      | _ => Err (key_error k)
      end
  | PList l =>
      match k with
      | PInt i => list_index l i
      | PBool b => list_index l (if b then 1 else 0)
      | _ => Err (mkExn TypeError "list indices must be integers or slices")
      end
  | PStr s =>
      match k with
      | PInt i => list_index (chars s) i
      | PBool b => list_index (chars s) (if b then 1 else 0)
      | _ => Err (mkExn TypeError "string indices must be integers")
      end
  | _ => Err (mkExn TypeError "object is not subscriptable")
  end.

(** [o.get(k, default)] *)
Definition py_get (o : pyval) (k : string) (default : pyval) : Result pyval :=
  match o with
  | PDict d => Ok (match assoc k d with Some v => v | None => default end)
  | _ => Err (mkExn AttributeError "object has no attribute 'get'")
  end.

Fixpoint rstrip_char (c : ascii) (s : string) : string :=
  match s with
  | EmptyString => EmptyString
  | String a s' =>
      let r := rstrip_char c s' in
      if Ascii.eqb a c && String.eqb r "" then EmptyString else String a r
  end.

Definition slash : ascii := "/"%char.

(** [o.rstrip("/")] *)
Definition py_rstrip_slash (o : pyval) : Result pyval :=
  match o with
  | PStr s => Ok (PStr (rstrip_char slash s))
  | _ => Err (mkExn AttributeError "object has no attribute 'rstrip'")
  end.

(** [s.split(c)]: never empty. *)
Fixpoint split_on (c : ascii) (s : string) : list string :=
  match s with
  | EmptyString => [""]
  | String a s' =>
      if Ascii.eqb a c then "" :: split_on c s'
      else match split_on c s' with
           | h :: t => String a h :: t
           | [] => [String a EmptyString]
           end
  end.

(** [o.split("/")] *)
Definition py_split_slash (o : pyval) : Result pyval :=
  match o with
  | PStr s => Ok (PList (map PStr (split_on slash s)))
  | _ => Err (mkExn AttributeError "object has no attribute 'split'")
  end.

(** ** The outside world *)

(** What the handler does to its collaborators, in program order.  [ECall]
    entries are written by mocks only (see [mock]). *)
Inductive Effect : Type :=
| ELog (msg : string)
| EPrint (msg : string)
| ETraceback (e : exn)
| EAssumeRole (resource : string)
| ESsmGetParametersByPath (path : pyval) (recursive with_decryption : bool)
| EHttp (verb : string) (url : pyval) (json : option pyval)
| EPublish (topic : pyval) (message : string) (attributes : pyval)
| EUuid4
| ECall (name : string) (args : list pyval).

Definition Trace : Type := list Effect.

Record HttpResponse : Type := mkResponse { status_code : Z; body : pyval }.

Inductive HttpReply : Type :=
| Transport (e : exn)
| Response (r : HttpResponse).

(** How the collaborators answer; each answer may depend on everything that
    happened before.  [json_loads] is the library function of that name. *)
Record Env : Type := mkEnv {
  environ : string -> option string;
  assume_role : Trace -> string -> option exn;
  ssm_get_parameters_by_path : Trace -> pyval -> Result pyval;
  http_send : Trace -> string -> pyval -> option pyval -> HttpReply;
  sns_publish : Trace -> pyval -> string -> pyval -> Result pyval;
  uuid4 : Trace -> string;
  json_loads : pyval -> Result pyval
}.

(** ** The monad of handler code *)

Definition M (A : Type) : Type := Env -> Trace -> Result A * Trace.

Definition ret {A} (a : A) : M A := fun _ tr => (Ok a, tr).

Definition bind {A B} (c : M A) (k : A -> M B) : M B :=
  fun env tr =>
    match c env tr with
    | (Ok a, tr') => k a env tr'
    | (Err e, tr') => (Err e, tr')
    end.

Definition raise {A} (e : exn) : M A := fun _ tr => (Err e, tr).

Definition lift {A} (r : Result A) : M A := fun _ tr => (r, tr).

Definition emit (e : Effect) : M unit := fun _ tr => (Ok tt, (tr ++ [e])%list).

(** [try: c  except <classes accepted by catches>: h] *)
Definition try_except {A} (c : M A) (catches : exn -> bool) (h : exn -> M A) : M A :=
  fun env tr =>
    match c env tr with
    | (Ok a, tr') => (Ok a, tr')
    | (Err e, tr') => if catches e then h e env tr' else (Err e, tr')
    end.

Declare Scope py_scope.
Delimit Scope py_scope with py.
Notation "x <- c ;; k" := (bind c (fun x => k))
  (at level 61, c at next level, right associativity) : py_scope.
Notation "c ;; k" := (bind c (fun _ => k))
  (at level 61, right associativity) : py_scope.
Local Open Scope py_scope.

(** [o[k]] with a literal string key, and [o[i]] with a literal index. *)
Definition item (o : pyval) (k : string) : M pyval := lift (py_getitem o (PStr k)).
Definition index (o : pyval) (i : Z) : M pyval := lift (py_getitem o (PInt i)).
(** [o[k]['Value']] *)
Definition item_value (o : pyval) (k : string) : M pyval :=
  a <- item o k ;; item a "Value".

(** A module-level callable, applied to its positional arguments. *)
Definition binding : Type := list pyval -> M pyval.

Definition arity_error (name : string) : exn :=
  mkExn TypeError (name ++ "() got the wrong number of positional arguments").

Definition def0 (name : string) (f : M pyval) : binding :=
  fun args => match args with [] => f | _ => raise (arity_error name) end.
Definition def1 (name : string) (f : pyval -> M pyval) : binding :=
  fun args => match args with [a] => f a | _ => raise (arity_error name) end.
Definition def2 (name : string) (f : pyval -> pyval -> M pyval) : binding :=
  fun args => match args with [a; b] => f a b | _ => raise (arity_error name) end.
Definition def3 (name : string) (f : pyval -> pyval -> pyval -> M pyval) : binding :=
  fun args => match args with [a; b; c] => f a b c | _ => raise (arity_error name) end.
(** Three parameters and a fourth with default [None]. *)
Definition def3_1 (name : string)
  (f : pyval -> pyval -> pyval -> pyval -> M pyval) : binding :=
  fun args =>
    match args with
    | [a; b; c] => f a b c PNone
    | [a; b; c; d] => f a b c d
    | _ => raise (arity_error name)
    end.

(** [unittest.mock.patch]: the name is bound to an object that records the
    call and answers as told. *)
Definition mock (name : string) (side_effect : list pyval -> Result pyval) : binding :=
  fun args _ tr => (side_effect args, (tr ++ [ECall name args])%list).

(** ** The module *)

(** [full_config_path = f"/{environ.get('ENV')}/{environ.get('APP_CONFIG_PATH')}"] *)
Definition environ_get (env : Env) (k : string) : pyval :=
  match environ env k with Some v => PStr v | None => PNone end.

Definition full_config_path : M pyval :=
  fun env tr =>
    (Ok (PStr ("/" ++ py_str (environ_get env "ENV") ++ "/"
                   ++ py_str (environ_get env "APP_CONFIG_PATH"))), tr).

Definition NEXT_SERVICE_MAP : list (string * pyval) :=
  [("ursa_major", PStr "fornax"); ("webhook", PStr "aquarius")].

(** *** [get_client_with_role] and the two client methods the module calls *)

Definition get_client_with_role (resource : string) : M pyval :=
  fun env tr =>
    (match assume_role env tr resource with
     | None => Ok (PClient resource)
     | Some e => Err e
     end, (tr ++ [EAssumeRole resource])%list).

Definition client_get_parameters_by_path (client path : pyval) : M pyval :=
  match client with
  | PClient "ssm" =>
      fun env tr => (ssm_get_parameters_by_path env tr path,
                     (tr ++ [ESsmGetParametersByPath path false true])%list)
  | _ => raise (mkExn AttributeError "object has no attribute 'get_parameters_by_path'")
  end.

Definition client_publish (client topic : pyval) (message : string) (attributes : pyval)
  : M pyval :=
  match client with
  | PClient "sns" =>
      fun env tr => (sns_publish env tr topic message attributes,
                     (tr ++ [EPublish topic message attributes])%list)
  | _ => raise (mkExn AttributeError "object has no attribute 'publish'")
  end.

(** *** [get_config] *)

(** One turn of the [for param in ...] loop. *)
Definition load_param (configuration : list (string * pyval)) (param : pyval)
  : Result (list (string * pyval)) :=
  match py_get param "Name" PNone with
  | Err e => Err e
  | Ok name =>
      match py_split_slash name with
      | Err e => Err e
      | Ok param_path_array =>
          match py_len param_path_array with
          | Err e => Err e
          | Ok n =>
              let section_position := (Z.of_nat n - 1)%Z in
              match py_getitem param_path_array (PInt section_position) with
              | Err e => Err e
              | Ok (PStr section_name) =>
                  match py_get param "Value" PNone with
                  | Err e => Err e
                  | Ok v => Ok (dict_set section_name v configuration)
                  end
              | Ok _ => Err (mkExn TypeError "unhashable type")
              end
          end
      end
  end.

(** The loop: the configuration when the loop is left, and the exception that
    ended it, if one did. *)
Fixpoint load_params (params : list pyval) (configuration : list (string * pyval))
  : list (string * pyval) * option exn :=
  match params with
  | [] => (configuration, None)
  | param :: rest =>
      match load_param configuration param with
      | Ok configuration' => load_params rest configuration'
      | Err e => (configuration, Some e)
      end
  end.

Definition get_config_body (ssm_parameter_path : pyval) : M pyval :=
  fun env tr =>
    (* configuration = {} ; try: *)
    let fetched :=
      (ssm_client <- get_client_with_role "ssm" ;;
       param_details <- client_get_parameters_by_path ssm_client ssm_parameter_path ;;
       params <- lift (py_get param_details "Parameters" (PList [])) ;;
       lift (py_iter params)) env tr in
    let '(configuration, raised, tr1) :=
      match fetched with
      | (Ok params, tr1) =>
          let '(configuration, raised) := load_params params [] in
          (configuration, raised, tr1)
      | (Err e, tr1) => ([], Some e, tr1)
      end in
    (* except BaseException: print(...); traceback.print_exc() *)
    let tr2 :=
      match raised with
      | Some e => (tr1 ++ [EPrint "Encountered an error loading config from SSM.";
                           ETraceback e])%list
      | None => tr1
      end in
    (* finally: return configuration *)
    (Ok (PDict configuration), tr2).

Definition get_config : binding := def1 "get_config" get_config_body.

(** *** [send_http_request]

    [logger.debug] calls are dropped throughout: the root logger is set to
    INFO, and formatting their arguments cannot fail. *)

Definition http_verbs : list string :=
  ["get"; "post"; "put"; "patch"; "delete"; "head"; "options"].

(** [getattr(zodiac_client, method)(url, json=data)]; attributes of the
    session other than its HTTP verbs are not requests and fail here. *)
Definition session_request (method url : pyval) (json : option pyval) : M HttpResponse :=
  match method with
  | PStr verb =>
      if existsb (String.eqb verb) http_verbs then
        fun env tr =>
          (match http_send env tr verb url json with
           | Transport e => Err e
           | Response r => Ok r
           end, (tr ++ [EHttp verb url json])%list)
      else raise (mkExn AttributeError "'Session' object has no such request method")
  | _ => raise (mkExn TypeError "attribute name must be string")
  end.

Definition raise_for_status (resp : HttpResponse) : M unit :=
  if ((400 <=? status_code resp) && (status_code resp <? 600))%Z
  then raise (mkExn HTTPError "HTTP error response")
  else ret tt.

Definition send_http_request_body (url method data : pyval) : M pyval :=
  resp <- (if py_truthy data
           then session_request method url (Some data)
           else session_request method url None) ;;
  raise_for_status resp ;;
  ret PNone.

Definition send_http_request : binding := def3 "send_http_request" send_http_request_body.

(** *** [construct_event_id] *)

Definition construct_event_id : binding :=
  def0 "construct_event_id"
    (fun env tr => (Ok (PStr (uuid4 env tr)), (tr ++ [EUuid4])%list)).

(** [config["ZODIAC_BASEURL"].rstrip("/")] *)
Definition zodiac_baseurl (config : pyval) : M pyval :=
  c <- item config "ZODIAC_BASEURL" ;; lift (py_rstrip_slash c).

(** *** [update_package] *)

Section update_package.
Variable g_send_http_request : binding.

Definition update_package_body (attributes config : pyval) : M pyval :=
  package_id <- item_value attributes "package_id" ;;
  let package_data := [("package_id", package_id)] in
  present <- lift (py_get attributes "package_data" PNone) ;;
  package_data <-
    (if py_truthy present then
       raw <- item_value attributes "package_data" ;;
       parsed <- (fun env tr => (json_loads env raw, tr)) ;;
       ret (dict_set "package_data" parsed package_data)
     else ret package_data) ;;
  baseurl <- zodiac_baseurl config ;;
  g_send_http_request
    [PStr (py_str baseurl ++ "/packages"); PStr "post"; PDict package_data] ;;
  ret PNone.

Definition update_package : binding := def2 "update_package" update_package_body.
End update_package.

(** *** [matching_events] *)

(** [e['service'] == service_name] *)
Definition service_matches (service_name e : pyval) : Result bool :=
  match py_getitem e (PStr "service") with
  | Err x => Err x
  | Ok s => Ok (py_eq s service_name)
  end.

(** [e['service'] == service_name and e['outcome'] == outcome] *)
Definition service_and_outcome_match (service_name outcome e : pyval) : Result bool :=
  match py_getitem e (PStr "service") with
  | Err x => Err x
  | Ok s =>
      if py_eq s service_name then
        match py_getitem e (PStr "outcome") with
        | Err x => Err x
        | Ok o => Ok (py_eq o outcome)
        end
      else Ok false
  end.

(** [[e for e in l if cond(e)]] *)
Fixpoint comprehension (cond : pyval -> Result bool) (l : list pyval)
  : Result (list pyval) :=
  match l with
  | [] => Ok []
  | e :: l' =>
      match cond e with
      | Err x => Err x
      | Ok keep =>
          match comprehension cond l' with
          | Err x => Err x
          | Ok kept => Ok (if keep then e :: kept else kept)
          end
      end
  end.

Definition select (cond : pyval -> Result bool) (iterable : pyval) : M pyval :=
  l <- lift (py_iter iterable) ;;
  kept <- lift (comprehension cond l) ;;
  ret (PList kept).

Section matching_events.
Variable g_send_http_request : binding.

Definition matching_events_body (package_id service_name baseurl outcome : pyval)
  : M pyval :=
  package_events <-
    g_send_http_request
      [PStr (py_str baseurl ++ "/packages/" ++ py_str package_id ++ "/events");
       PStr "get"] ;;
  if py_truthy outcome
  then select (service_and_outcome_match service_name outcome) package_events
  else select (service_matches service_name) package_events.

Definition matching_events : binding := def3_1 "matching_events" matching_events_body.
End matching_events.

(** *** [update_events] *)

Section update_events.
Variables g_matching_events g_construct_event_id g_send_http_request : binding.

Definition update_events_body (attributes config : pyval) : M pyval :=
  a_package_id <- item attributes "package_id" ;;
  a_service <- item attributes "service" ;;
  baseurl <- zodiac_baseurl config ;;
  package_events <- g_matching_events [a_package_id; a_service; baseurl] ;;
  n <- lift (py_len package_events) ;;
  if Nat.leb n 1 then
    outcome <- item_value attributes "outcome" ;;
    service <- item_value attributes "service" ;;
    package <- item_value attributes "package_id" ;;
    identifier <-
      (if Nat.eqb n 1
       then e <- index package_events 0 ;; item e "identifier"
       else g_construct_event_id []) ;;
    baseurl <- zodiac_baseurl config ;;
    g_send_http_request
      [PStr (py_str baseurl ++ "/events"); PStr "post";
       PDict [("outcome", outcome); ("service", service);
              ("package", package); ("identifier", identifier)]] ;;
    ret PNone
  else
    a_package_id <- item attributes "package_id" ;;
    raise (mkExn PlainException
             ("Got more than one matching event for package "
              ++ py_str a_package_id ++ ", found " ++ nat_str n)).

Definition update_events : binding := def2 "update_events" update_events_body.
End update_events.

(** *** [send_next_service_message] *)

Definition string_attribute (v : pyval) : pyval :=
  PDict [("DataType", PStr "String"); ("StringValue", v)].

Definition start_message_attributes (package_id next_service : pyval) : pyval :=
  PDict [("package_id", string_attribute package_id);
         ("requested_status", string_attribute (PStr "START"));
         ("service", string_attribute next_service)].

Definition send_next_service_message_body (current_service package_id config : pyval)
  : M pyval :=
  try_except
    (next_service <- lift (py_getitem (PDict NEXT_SERVICE_MAP) current_service) ;;
     emit (ELog ("Starting service " ++ py_str next_service)) ;;
     client <- get_client_with_role "sns" ;;
     topic <- item config "SERVICE_START_SNS_TOPIC" ;;
     client_publish client topic
       ("Start service " ++ py_str next_service ++ " for package " ++ py_str package_id)
       (start_message_attributes package_id next_service) ;;
     emit (ELog ("Message to start service " ++ py_str next_service
                 ++ " for package " ++ py_str package_id ++ " sent.")) ;;
     ret PNone)
    is_KeyError
    (fun _ =>
       emit (ELog ("No next service found for " ++ py_str current_service)) ;;
       ret PNone).

Definition send_next_service_message : binding :=
  def3 "send_next_service_message" send_next_service_message_body.

(** *** [lambda_handler] *)

Section lambda_handler.
Variables g_get_config g_matching_events g_update_package g_update_events
          g_send_next_service_message : binding.

Definition lambda_handler_body (event context : pyval) : M pyval :=
  emit (ELog "Message received.") ;;
  path <- full_config_path ;;
  config <- g_get_config [path] ;;
  records <- item event "Records" ;;
  record <- index records 0 ;;
  sns <- item record "Sns" ;;
  attributes <- item sns "MessageAttributes" ;;
  package_id <- item_value attributes "package_id" ;;
  service <- item_value attributes "service" ;;
  baseurl <- zodiac_baseurl config ;;
  outcome <- item_value attributes "outcome" ;;
  found <- g_matching_events [package_id; service; baseurl; outcome] ;;
  n <- lift (py_len found) ;;
  if Nat.eqb n 0 then
    g_update_package [attributes; config] ;;
    g_update_events [attributes; config] ;;
    declared <- (o <- lift (py_get attributes "outcome" (PDict [])) ;;
                 lift (py_get o "Value" PNone)) ;;
    if py_eq declared (PStr "SUCCESS") then
      service <- item_value attributes "service" ;;
      package_id <- item_value attributes "package_id" ;;
      g_send_next_service_message [service; package_id; config] ;;
      ret PNone
    else ret PNone
  else
    emit (ELog "Duplicate event found") ;;
    ret PNone.

Definition lambda_handler : binding := def2 "lambda_handler" lambda_handler_body.
End lambda_handler.

(** ** The module as shipped: every name bound to its definition *)

Module Shipped.
Definition update_package : binding := update_package send_http_request.
Definition matching_events : binding := matching_events send_http_request.
Definition update_events : binding :=
  update_events matching_events construct_event_id send_http_request.
Definition lambda_handler : binding :=
  lambda_handler get_config matching_events update_package update_events
    send_next_service_message.
End Shipped.

(** ** Inputs used by the examples

    The message attributes and the configuration of the test-suite, and
    collaborators that answer every request with success. *)

Definition attribute (v : string) : pyval :=
  PDict [("Type", PStr "String"); ("Value", PStr v)].

Definition success_attributes : pyval :=
  PDict [("package_id", attribute "20f8da26e268418ead4aa2365f816a08");
         ("service", attribute "validation");
         ("outcome", attribute "SUCCESS")].

Definition sns_event (attributes : pyval) : pyval :=
  PDict [("Records", PList [PDict [("Sns", PDict [("MessageAttributes", attributes)])]])].

Definition config_fixture : pyval :=
  PDict [("ZODIAC_BASEURL", PStr "https://zodiac.rockarch.org/api")].

Definition event_record (outcome service package identifier : string) : pyval :=
  PDict [("outcome", PStr outcome); ("service", PStr service);
         ("package", PStr package); ("identifier", PStr identifier)].

Definition parameter (name value : string) : pyval :=
  PDict [("Name", PStr name); ("Type", PStr "SecureString"); ("Value", PStr value)].

(** A world where the role is assumed, the parameter store holds [params],
    the API answers 200 with [events] and publishing succeeds. *)
Definition calm_env (params events : list pyval) : Env :=
  mkEnv (fun k => if String.eqb k "ENV" then Some "dev"
                  else if String.eqb k "APP_CONFIG_PATH" then Some "digital_ingest"
                  else None)
        (fun _ _ => None)
        (fun _ _ => Ok (PDict [("Parameters", PList params)]))
        (fun _ _ _ _ => Response (mkResponse 200 (PList events)))
        (fun _ _ _ _ => Ok (PDict [("MessageId", PStr "m-1")]))
        (fun _ => "0b1f6c3e-5d0a-4c57-9a51-7f3c52f1f2aa")
        (fun _ => Err (mkExn ValueError "Expecting value")).

(** What a patched [send_http_request] answers when the API holds [events]:
    the list for a GET, nothing for anything else. *)
Definition zodiac_answers (events : list pyval) (args : list pyval) : Result pyval :=
  match args with
  | [_; PStr "get"] => Ok (PList events)
  | _ => Ok PNone
  end.

Definition package_id_fixture : string := "20f8da26e268418ead4aa2365f816a08".

(** ** The module with [send_http_request] patched

    [tests/test_notifications.py] replaces the name by a mock; every other
    name keeps its definition. *)

Module Patched.
Section side_effect.
Variable side_effect : list pyval -> Result pyval.

Definition send_http_request : binding := mock "send_http_request" side_effect.
Definition update_package : binding := update_package send_http_request.
Definition matching_events : binding := matching_events send_http_request.
Definition update_events : binding :=
  update_events matching_events construct_event_id send_http_request.
Definition lambda_handler : binding :=
  lambda_handler get_config matching_events update_package update_events
    send_next_service_message.
End side_effect.
End Patched.

(** * Vocabulary of the statements *)

(** [pure c]: [c] performs no effect. *)
Definition pure {A} (c : M A) : Prop :=
  forall env tr, exists r, c env tr = (r, tr).

(** [fails_quietly c]: [c] always raises, and has done nothing by then. *)
Definition fails_quietly {A} (c : M A) : Prop :=
  forall env tr, exists e, c env tr = (Err e, tr).

(** [returns c Q]: whenever [c] returns, the value satisfies [Q]. *)
Definition returns {A} (c : M A) (Q : A -> Prop) : Prop :=
  forall env tr a tr', c env tr = (Ok a, tr') -> Q a.

Definition is_get (args : list pyval) : bool :=
  match args with
  | _ :: PStr "get" :: _ => true
  | _ => false
  end.

(** Downstream writes: a publish, a request that is not a GET, and, when
    names are patched, a call to a function that writes. *)
Definition is_write (e : Effect) : bool :=
  match e with
  | EPublish _ _ _ => true
  | EHttp verb _ _ => negb (String.eqb verb "get")
  | ECall name args =>
      if String.eqb name "send_http_request" then negb (is_get args)
      else existsb (String.eqb name)
             ["update_package"; "update_events"; "send_next_service_message"]
  | _ => false
  end.

Definition writes (tr : Trace) : list Effect := filter is_write tr.

(** [quiet c]: [c] adds no write to the trace. *)
Definition quiet {A} (c : M A) : Prop :=
  forall env tr r tr', c env tr = (r, tr') -> writes tr' = writes tr.

Definition is_publish (e : Effect) : bool :=
  match e with EPublish _ _ _ => true | _ => false end.

(** [event['Records'][0]['Sns']['MessageAttributes']] *)
Definition message_attributes (event : pyval) : Result pyval :=
  match py_getitem event (PStr "Records") with
  | Err e => Err e
  | Ok records =>
      match py_getitem records (PInt 0) with
      | Err e => Err e
      | Ok record =>
          match py_getitem record (PStr "Sns") with
          | Err e => Err e
          | Ok sns => py_getitem sns (PStr "MessageAttributes")
          end
      end
  end.

(** [attributes[k]['Value']] *)
Definition attribute_value (attributes : pyval) (k : string) : Result pyval :=
  match py_getitem attributes (PStr k) with
  | Err e => Err e
  | Ok a => py_getitem a (PStr "Value")
  end.

(** The text after the last "/" of a parameter name. *)
Fixpoint last_segment (s : string) : string :=
  match s with
  | EmptyString => EmptyString
  | String a s' =>
      if contains_char slash s' then last_segment s'
      else if Ascii.eqb a slash then s' else s
  end.

(** [n] characters "/". *)
Fixpoint slashes (n : nat) : string :=
  match n with
  | O => EmptyString
  | S n' => String slash (slashes n')
  end.

(** [selected cond e]: the comprehension keeps [e]. *)
Definition selected (cond : pyval -> Result bool) (e : pyval) : bool :=
  match cond e with Ok true => true | _ => false end.

(** An entry of the parameter store's answer: a record with a string [Name]
    and a [Value]. *)
Definition is_parameter (param : pyval) (entry : string * pyval) : Prop :=
  py_get param "Name" PNone = Ok (PStr (fst entry))
  /\ py_get param "Value" PNone = Ok (snd entry).

(** The mapping the specification describes: every value filed under the
    final segment of its parameter's name, in the order of the entries. *)
Definition settings_from (configuration : list (string * pyval))
  (entries : list (string * pyval)) : list (string * pyval) :=
  fold_left (fun c entry => dict_set (last_segment (fst entry)) (snd entry) c)
            entries configuration.

Definition settings (entries : list (string * pyval)) : list (string * pyval) :=
  settings_from [] entries.

(** The value of the last entry whose name ends in [k]. *)
Definition setting (k : string) (entries : list (string * pyval)) : option pyval :=
  assoc k (rev (map (fun entry => (last_segment (fst entry), snd entry)) entries)).

(** A world like [env] where publishing raises [e]. *)
Definition with_publish_error (e : exn) (env : Env) : Env :=
  mkEnv (environ env) (assume_role env) (ssm_get_parameters_by_path env)
        (http_send env) (fun _ _ _ _ => Err e) (uuid4 env) (json_loads env).

(** What the [except BaseException] clause of [get_config] leaves behind. *)
Definition report (e : exn) : Trace :=
  [EPrint "Encountered an error loading config from SSM."; ETraceback e].

(** [config] with its [ZODIAC_BASEURL] set to [url]. *)
Definition with_baseurl (config : list (string * pyval)) (url : string) : pyval :=
  PDict (dict_set "ZODIAC_BASEURL" (PStr url) config).

(** The outcome the message declares: [attributes['outcome']['Value']] of
    its first record. *)
Definition declared_outcome (event : pyval) : Result pyval :=
  match message_attributes event with
  | Err e => Err e
  | Ok attributes => attribute_value attributes "outcome"
  end.

(** The handler with the five names it calls patched, as the tests of the
    handler patch them. *)
Definition mocked_lambda_handler
  (get_config_answer matching_events_answer update_package_answer
   update_events_answer send_next_service_message_answer : list pyval -> Result pyval)
  : binding :=
  lambda_handler (mock "get_config" get_config_answer)
                 (mock "matching_events" matching_events_answer)
                 (mock "update_package" update_package_answer)
                 (mock "update_events" update_events_answer)
                 (mock "send_next_service_message" send_next_service_message_answer).

(** [config["ZODIAC_BASEURL"].rstrip("/")], as a value. *)
Definition baseurl_of (config : pyval) : Result pyval :=
  match py_getitem config (PStr "ZODIAC_BASEURL") with
  | Err e => Err e
  | Ok c => py_rstrip_slash c
  end.

(** The configuration path the module computes when it is imported. *)
Definition config_path (env : Env) : pyval :=
  PStr ("/" ++ py_str (environ_get env "ENV") ++ "/"
            ++ py_str (environ_get env "APP_CONFIG_PATH")).

(** The inputs of the handler tests. *)
Definition message (service outcome : string) : pyval :=
  sns_event (PDict [("package_id", attribute package_id_fixture);
                    ("service", attribute service);
                    ("outcome", attribute outcome)]).

Definition handler_of_the_tests (found : list pyval) : binding :=
  mocked_lambda_handler (fun _ => Ok config_fixture) (fun _ => Ok (PList found))
    (fun _ => Ok PNone) (fun _ => Ok PNone) (fun _ => Ok PNone).

Definition called (name : string) (tr : Trace) : bool :=
  existsb (fun e => match e with ECall n _ => String.eqb n name | _ => false end) tr.

(** * Vocabulary of the further properties *)

(** The body [update_package] posts: the package id and, when the message
    carries data, the parsed data. *)
Definition package_payload (package_id : pyval) (data : option pyval) : pyval :=
  PDict (("package_id", package_id)
           :: match data with
              | Some parsed => [("package_data", parsed)]
              | None => []
              end).

(** What a caller of a binding makes of its run: the value is dropped. *)
Definition discard (run : Result pyval * Trace) : Result pyval * Trace :=
  (match fst run with Ok _ => Ok PNone | Err e => Err e end, snd run).

(** [e] is a record of [service_name] (and of [outcome], when one is
    asked for). *)
Definition record_matches (service_name outcome e : pyval) : bool :=
  match py_getitem e (PStr "service") with
  | Ok s =>
      py_eq s service_name
      && (if py_truthy outcome then
            match py_getitem e (PStr "outcome") with
            | Ok o => py_eq o outcome
            | Err _ => false
            end
          else true)
  | Err _ => false
  end.

(** [e] has the fields the comprehension reads: a service, and an outcome
    when the service matches and an outcome is asked for. *)
Definition readable (service_name outcome e : pyval) : Prop :=
  exists s,
    py_getitem e (PStr "service") = Ok s
    /\ (py_truthy outcome = true -> py_eq s service_name = true ->
        exists o, py_getitem e (PStr "outcome") = Ok o).

Definition is_http (e : Effect) : bool :=
  match e with EHttp _ _ _ => true | _ => false end.

Fixpoint ends_with (c : ascii) (s : string) : bool :=
  match s with
  | EmptyString => false
  | String a EmptyString => Ascii.eqb a c
  | String _ s' => ends_with c s'
  end.

(** The names of the patched functions called, in order. *)
Fixpoint call_names (tr : Trace) : list string :=
  match tr with
  | [] => []
  | ECall name _ :: tr' => name :: call_names tr'
  | _ :: tr' => call_names tr'
  end.

(** The order in which the handler can call the names it uses. *)
Definition handler_calls : list string :=
  ["get_config"; "matching_events"; "update_package"; "update_events";
   "send_next_service_message"].

(** [l] is an initial segment of [l']. *)
Fixpoint is_prefix (l l' : list string) : bool :=
  match l, l' with
  | [], _ => true
  | x :: t, y :: t' => String.eqb x y && is_prefix t t'
  | _ :: _, [] => false
  end.

(** A world like [env] where the role cannot be assumed. *)
Definition with_role_error (e : exn) (env : Env) : Env :=
  mkEnv (environ env) (fun _ _ => Some e) (ssm_get_parameters_by_path env)
        (http_send env) (sns_publish env) (uuid4 env) (json_loads env).

(** A world like [env] where the API answers every request with [status]. *)
Definition with_status (status : Z) (env : Env) : Env :=
  mkEnv (environ env) (assume_role env) (ssm_get_parameters_by_path env)
        (fun _ _ _ _ => Response (mkResponse status PNone))
        (sns_publish env) (uuid4 env) (json_loads env).

(** A world like [env] where [json.loads] is [loads]. *)
Definition with_json_loads (loads : pyval -> Result pyval) (env : Env) : Env :=
  mkEnv (environ env) (assume_role env) (ssm_get_parameters_by_path env)
        (http_send env) (sns_publish env) (uuid4 env) loads.

(** The data of the message, as [update_package] reads it:
    [json.loads(attributes['package_data']['Value'])] when
    [attributes.get('package_data')] is truthy, nothing otherwise. *)
Definition message_data (env : Env) (attributes : pyval) : Result (option pyval) :=
  match py_get attributes "package_data" PNone with
  | Err e => Err e
  | Ok present =>
      if py_truthy present then
        match attribute_value attributes "package_data" with
        | Err e => Err e
        | Ok raw =>
            match json_loads env raw with
            | Err e => Err e
            | Ok parsed => Ok (Some parsed)
            end
        end
      else Ok None
  end.

(** The attributes of the message with a [package_data] attribute. *)
Definition attributes_with_data (raw : string) : pyval :=
  PDict [("package_id", attribute package_id_fixture);
         ("service", attribute "validation");
         ("outcome", attribute "SUCCESS");
         ("package_data", attribute raw)].

(** The answer of the mock bound to [name] in [mocked_lambda_handler]. *)
Definition answer_of (cs ms us es ns : list pyval -> Result pyval) (name : string)
  : list pyval -> Result pyval :=
  if String.eqb name "get_config" then cs
  else if String.eqb name "matching_events" then ms
  else if String.eqb name "update_package" then us
  else if String.eqb name "update_events" then es
  else ns.

(** The duplicate check returned zero matches: the configuration was loaded,
    the message read, and [matching_events], given the package id, the
    service, the base URL and the outcome, returned something of length 0. *)
Definition check_found_nothing (cs ms : list pyval -> Result pyval) (env : Env)
  (event : pyval) : Prop :=
  exists config attributes package_id service baseurl outcome found,
    cs [config_path env] = Ok config
    /\ message_attributes event = Ok attributes
    /\ attribute_value attributes "package_id" = Ok package_id
    /\ attribute_value attributes "service" = Ok service
    /\ baseurl_of config = Ok baseurl
    /\ attribute_value attributes "outcome" = Ok outcome
    /\ ms [package_id; service; baseurl; outcome] = Ok found
    /\ py_len found = Ok 0%nat.

(** [update_package] and [update_events], given the attributes of the
    message and the loaded configuration, both returned. *)
Definition upserts_returned (cs us es : list pyval -> Result pyval) (env : Env)
  (event : pyval) : Prop :=
  exists config attributes u v,
    cs [config_path env] = Ok config
    /\ message_attributes event = Ok attributes
    /\ us [attributes; config] = Ok u
    /\ es [attributes; config] = Ok v.

(** The trigger was called. *)
Definition triggered (effects : Trace) : Prop :=
  exists args, In (ECall "send_next_service_message" args) effects.

(** The handler with the trigger as the module defines it and the four other
    names it calls patched. *)
Definition lambda_handler_with_trigger (cs ms us es : list pyval -> Result pyval)
  : binding :=
  lambda_handler (mock "get_config" cs) (mock "matching_events" ms)
    (mock "update_package" us) (mock "update_events" es)
    send_next_service_message.

(** What [send_next_service_message] leaves in the trace when the lookup of
    the topic fails with a [KeyError]. *)
Definition swallowed_trigger (current_service : string) (next_service : pyval) : Trace :=
  [ELog ("Starting service " ++ py_str next_service);
   EAssumeRole "sns";
   ELog ("No next service found for " ++ current_service)].

(** * Reasoning about handler code *)

(** ** Running one step *)

Lemma bind_ok {A B} (c : M A) (k : A -> M B) env tr a tr1 :
  c env tr = (Ok a, tr1) -> bind c k env tr = k a env tr1.
Proof. unfold bind; intros ->; reflexivity. Qed.

Lemma bind_err {A B} (c : M A) (k : A -> M B) env tr e tr1 :
  c env tr = (Err e, tr1) -> bind c k env tr = (Err e, tr1).
Proof. unfold bind; intros ->; reflexivity. Qed.

Lemma bind_lift {A B} (r : Result A) (k : A -> M B) env tr :
  bind (lift r) k env tr = match r with Ok a => k a env tr | Err e => (Err e, tr) end.
Proof. destruct r; reflexivity. Qed.

Lemma bind_bind {A B C} (c : M A) (k : A -> M B) (k' : B -> M C) env tr :
  bind (bind c k) k' env tr = bind c (fun a => bind (k a) k') env tr.
Proof. unfold bind; destruct (c env tr) as [[a | e] tr1]; reflexivity. Qed.

Lemma bind_inv {A B} (c : M A) (k : A -> M B) env tr r tr' :
  bind c k env tr = (r, tr') ->
  (exists a tr1, c env tr = (Ok a, tr1) /\ k a env tr1 = (r, tr')) \/
  (exists e, c env tr = (Err e, tr') /\ r = Err e).
Proof.
  unfold bind; destruct (c env tr) as [[a | e] tr1]; intros H.
  - left; eauto.
  - right; inversion H; subst; eauto.
Qed.

Lemma bind_emit {B} (e : Effect) (k : unit -> M B) env tr :
  bind (emit e) k env tr = k tt env (tr ++ [e])%list.
Proof. reflexivity. Qed.

Lemma bind_mock {B} name answer args (k : pyval -> M B) env tr :
  bind (mock name answer args) k env tr
  = match answer args with
    | Ok v => k v env (tr ++ [ECall name args])%list
    | Err e => (Err e, (tr ++ [ECall name args])%list)
    end.
Proof. unfold bind, mock. destruct (answer args); reflexivity. Qed.

Lemma bind_item {B} o key (k : pyval -> M B) env tr :
  bind (item o key) k env tr
  = match py_getitem o (PStr key) with
    | Ok v => k v env tr
    | Err e => (Err e, tr)
    end.
Proof. apply bind_lift. Qed.

Lemma bind_item_value {B} o key (k : pyval -> M B) env tr :
  bind (item_value o key) k env tr
  = match attribute_value o key with
    | Ok v => k v env tr
    | Err e => (Err e, tr)
    end.
Proof.
  unfold item_value, attribute_value. rewrite bind_bind, bind_item.
  destruct (py_getitem o (PStr key)); [apply bind_item | reflexivity].
Qed.

Lemma bind_zodiac_baseurl {B} config (k : pyval -> M B) env tr :
  bind (zodiac_baseurl config) k env tr
  = match baseurl_of config with
    | Ok v => k v env tr
    | Err e => (Err e, tr)
    end.
Proof.
  unfold zodiac_baseurl, baseurl_of. rewrite bind_bind, bind_item.
  destruct (py_getitem config (PStr "ZODIAC_BASEURL")); [apply bind_lift | reflexivity].
Qed.

Lemma bind_message_attributes {B} event (k : pyval -> M B) env tr :
  bind (item event "Records")
       (fun records =>
          bind (index records 0)
               (fun record =>
                  bind (item record "Sns")
                       (fun sns => bind (item sns "MessageAttributes") k))) env tr
  = match message_attributes event with
    | Ok attributes => k attributes env tr
    | Err e => (Err e, tr)
    end.
Proof.
  unfold message_attributes. rewrite bind_item.
  destruct (py_getitem event (PStr "Records")) as [records|]; [|reflexivity].
  unfold index. rewrite bind_lift.
  destruct (py_getitem records (PInt 0)) as [record|]; [|reflexivity].
  rewrite bind_item.
  destruct (py_getitem record (PStr "Sns")) as [sns|]; [|reflexivity].
  apply bind_item.
Qed.

Lemma getitem_get o k v d : py_getitem o (PStr k) = Ok v -> py_get o k d = Ok v.
Proof.
  destruct o; cbn [py_getitem py_get]; try discriminate.
  destruct (assoc k d0); congruence.
Qed.

Lemma declared_again attributes outcome :
  attribute_value attributes "outcome" = Ok outcome ->
  match py_get attributes "outcome" (PDict []) with
  | Ok o => py_get o "Value" PNone
  | Err e => Err e
  end = Ok outcome.
Proof.
  unfold attribute_value.
  destruct (py_getitem attributes (PStr "outcome")) as [o|] eqn:Ho; [|discriminate].
  intros Hv. rewrite (getitem_get _ _ _ _ Ho). apply (getitem_get _ _ _ _ Hv).
Qed.

(** ** Computations that leave no trace *)

Lemma pure_lift {A} (r : Result A) : pure (lift r).
Proof. intros env tr; eexists; reflexivity. Qed.

Lemma pure_ret {A} (a : A) : pure (ret a).
Proof. intros env tr; eexists; reflexivity. Qed.

Lemma pure_bind {A B} (c : M A) (k : A -> M B) :
  pure c -> (forall a, pure (k a)) -> pure (bind c k).
Proof.
  intros Hc Hk env tr. destruct (Hc env tr) as [[a | e] H].
  - rewrite (bind_ok _ _ _ _ _ _ H). apply Hk.
  - rewrite (bind_err _ _ _ _ _ _ H). eauto.
Qed.

Lemma pure_item o k : pure (item o k).
Proof. apply pure_lift. Qed.

Lemma pure_index o i : pure (index o i).
Proof. apply pure_lift. Qed.

Lemma pure_item_value o k : pure (item_value o k).
Proof. apply pure_bind; [apply pure_item | intros; apply pure_item]. Qed.

Lemma pure_zodiac_baseurl config : pure (zodiac_baseurl config).
Proof. apply pure_bind; [apply pure_item | intros; apply pure_lift]. Qed.

Lemma pure_full_config_path : pure full_config_path.
Proof. intros env tr; eexists; reflexivity. Qed.

Create HintDb handler.
#[local] Hint Resolve pure_lift pure_ret pure_item pure_index pure_item_value
  pure_zodiac_baseurl pure_full_config_path : handler.

Lemma fails_quietly_raise {A} (e : exn) : fails_quietly (@raise A e).
Proof. intros env tr; eexists; reflexivity. Qed.

Lemma fails_quietly_bind {A B} (c : M A) (k : A -> M B) :
  fails_quietly c -> fails_quietly (bind c k).
Proof.
  intros Hc env tr. destruct (Hc env tr) as [e H].
  rewrite (bind_err _ _ _ _ _ _ H). eauto.
Qed.

Lemma fails_quietly_after {A B} (c : M A) (k : A -> M B) :
  pure c -> (forall a, fails_quietly (k a)) -> fails_quietly (bind c k).
Proof.
  intros Hc Hk env tr. destruct (Hc env tr) as [[a | e] H].
  - rewrite (bind_ok _ _ _ _ _ _ H). apply Hk.
  - rewrite (bind_err _ _ _ _ _ _ H). eauto.
Qed.

(** ** The GET that never happens

    [matching_events] calls [send_http_request(url, 'get')]; the function
    takes three positional parameters and none has a default. *)

Lemma send_http_request_two_arguments (url method : pyval) env tr :
  send_http_request [url; method] env tr
  = (Err (arity_error "send_http_request"), tr).
Proof. reflexivity. Qed.

Lemma shipped_matching_events_fails (args : list pyval) :
  fails_quietly (Shipped.matching_events args).
Proof.
  intros env tr.
  destruct args as [|a [|b [|c [|d [|x rest]]]]]; eexists; reflexivity.
Qed.

Lemma shipped_update_events_fails (args : list pyval) :
  fails_quietly (Shipped.update_events args).
Proof.
  destruct args as [|attributes [|config [|x rest]]];
    try apply fails_quietly_raise.
  unfold Shipped.update_events, update_events, def2, update_events_body.
  apply fails_quietly_after; auto with handler; intros a_package_id.
  apply fails_quietly_after; auto with handler; intros a_service.
  apply fails_quietly_after; auto with handler; intros baseurl.
  apply fails_quietly_bind, shipped_matching_events_fails.
Qed.

(** * The defect in HTTP dispatch and what it takes with it *)

(** C7 (defect in the code).  The claim: a successful GET through
    [send_http_request] hands the parsed JSON body back to its caller, so that
    [matching_events] receives the list of events.  The code: the function has
    no [return], so every call that succeeds yields [None], GET included;
    called the way [matching_events] calls it, with two arguments, it raises
    [TypeError] before any request is made, and so does every call of
    [matching_events]. *)
Theorem send_http_request_returns_none :
  (forall env tr url method data v tr',
      send_http_request [url; method; data] env tr = (Ok v, tr') -> v = PNone)
  /\ (forall env tr url method,
      send_http_request [url; method] env tr
      = (Err (arity_error "send_http_request"), tr))
  /\ (forall args, fails_quietly (Shipped.matching_events args)).
Proof.
  split; [|split].
  - intros env tr url method data v tr' H.
    unfold send_http_request, def3, send_http_request_body in H.
    apply bind_inv in H as [(resp & tr1 & _ & H) | (e & _ & H)]; [|discriminate].
    apply bind_inv in H as [(u & tr2 & _ & H) | (e & _ & H)]; [|discriminate].
    unfold ret in H. congruence.
  - intros; apply send_http_request_two_arguments.
  - apply shipped_matching_events_fails.
Qed.

(** The API answers the GET with one event; the caller gets [None]. *)
Lemma send_http_request_returns_none_witness :
  let events := [event_record "SUCCESS" "fornax" package_id_fixture "abc"] in
  send_http_request [PStr "baseurl/packages/package_id/events"; PStr "get"; PNone]
    (calm_env [] events) []
  = (Ok PNone, [EHttp "get" (PStr "baseurl/packages/package_id/events") None])
  /\ PNone = PNone.
Proof.
  intros events. split; [reflexivity|].
  exact (proj1 send_http_request_returns_none (calm_env [] events) []
           (PStr "baseurl/packages/package_id/events") (PStr "get") PNone PNone
           _ eq_refl).
Defined.

(** C8 (defect in the code, the one of C7).  The claim: [matching_events]
    returns exactly the events of the API's list whose service (and outcome,
    when given) match.  The code: with or without an outcome, the call raises
    [TypeError] at its first statement and returns no list, whatever the API
    holds. *)
Theorem matching_events_never_returns :
  forall package_id service_name baseurl outcome env tr,
    Shipped.matching_events [package_id; service_name; baseurl] env tr
    = (Err (arity_error "send_http_request"), tr)
    /\ Shipped.matching_events [package_id; service_name; baseurl; outcome] env tr
       = (Err (arity_error "send_http_request"), tr).
Proof. intros; split; reflexivity. Qed.

(** The comprehension itself selects as the claim says: with the GET patched
    to return a list of records, the result is the sub-list that matches. *)
Lemma comprehension_filter (cond : pyval -> Result bool) (l : list pyval) :
  Forall (fun e => exists b, cond e = Ok b) l ->
  comprehension cond l = Ok (filter (selected cond) l).
Proof.
  induction 1 as [|e l [b Hb] _ IH]; [reflexivity|].
  cbn [comprehension filter]. unfold selected at 1. rewrite Hb, IH.
  destruct b; reflexivity.
Qed.

Lemma patched_matching_events_filters side_effect package_id service_name baseurl
      outcome events env tr :
  let url := PStr (py_str baseurl ++ "/packages/" ++ py_str package_id ++ "/events") in
  let cond := if py_truthy outcome
              then service_and_outcome_match service_name outcome
              else service_matches service_name in
  side_effect [url; PStr "get"] = Ok (PList events) ->
  Forall (fun e => exists b, cond e = Ok b) events ->
  Patched.matching_events side_effect [package_id; service_name; baseurl; outcome] env tr
  = (Ok (PList (filter (selected cond) events)),
     (tr ++ [ECall "send_http_request" [url; PStr "get"]])%list).
Proof.
  intros url cond Hget Hwf.
  unfold Patched.matching_events, matching_events, def3_1, matching_events_body.
  fold url.
  erewrite bind_ok by (unfold Patched.send_http_request, mock; rewrite Hget; reflexivity).
  subst cond. destruct (py_truthy outcome); unfold select;
    rewrite bind_lift; cbn [py_iter]; rewrite bind_lift;
    rewrite (comprehension_filter _ _ Hwf); reflexivity.
Qed.

(** C2 (defect in the code).  The claim: with zero or one existing event for
    the package and service, [update_events] issues exactly one event POST,
    reusing the identifier of the existing event when there is one.  The
    code: the lookup of existing events raises [TypeError] (the defect of
    C7), so no POST is ever issued.  With [send_http_request] patched to
    return the API's list, a second slip shows: the lookup is given the whole
    attribute records instead of their values, no event ever matches, and the
    POST carries a new identifier although the API holds one event, [abc],
    for this package and service. *)
Theorem update_events_does_not_reuse_identifier :
  (forall attributes config, fails_quietly (Shipped.update_events [attributes; config]))
  /\ (let existing := [event_record "FAILURE" "validation" package_id_fixture "abc"] in
      Patched.update_events (zodiac_answers existing)
        [success_attributes; config_fixture] (calm_env [] existing) []
      = (Ok PNone,
         [ECall "send_http_request"
            [PStr ("https://zodiac.rockarch.org/api/packages/"
                   ++ "{'Type': 'String', 'Value': '20f8da26e268418ead4aa2365f816a08'}"
                   ++ "/events");
             PStr "get"];
          EUuid4;
          ECall "send_http_request"
            [PStr "https://zodiac.rockarch.org/api/events"; PStr "post";
             PDict [("outcome", PStr "SUCCESS"); ("service", PStr "validation");
                    ("package", PStr package_id_fixture);
                    ("identifier", PStr "0b1f6c3e-5d0a-4c57-9a51-7f3c52f1f2aa")]]])).
Proof.
  split.
  - intros; apply shipped_update_events_fails.
  - reflexivity.
Qed.

(** C3 (defect in the code).  The claim: with two or more existing events for
    the package and service, [update_events] raises an error naming the
    package and the count, and issues no POST.  The code: the error raised is
    the [TypeError] of C7, which names neither.  With [send_http_request]
    patched to return the API's list of two events for the service, the slip
    of C2 makes the lookup find none: no error is raised and an event is
    POSTed. *)
Theorem update_events_misses_repeated_events :
  (forall env tr,
      Shipped.update_events [success_attributes; config_fixture] env tr
      = (Err (arity_error "send_http_request"), tr))
  /\ (let existing := [event_record "FAILURE" "validation" package_id_fixture "abc";
                       event_record "SUCCESS" "validation" package_id_fixture "def"] in
      exists url,
        Patched.update_events (zodiac_answers existing)
          [success_attributes; config_fixture] (calm_env [] existing) []
        = (Ok PNone,
           [ECall "send_http_request" [url; PStr "get"];
            EUuid4;
            ECall "send_http_request"
              [PStr "https://zodiac.rockarch.org/api/events"; PStr "post";
               PDict [("outcome", PStr "SUCCESS"); ("service", PStr "validation");
                      ("package", PStr package_id_fixture);
                      ("identifier", PStr "0b1f6c3e-5d0a-4c57-9a51-7f3c52f1f2aa")]]])).
Proof.
  split.
  - intros; reflexivity.
  - eexists; reflexivity.
Qed.

(** * The next-service trigger *)

Lemma next_service_lookup (current_service : string) :
  py_getitem (PDict NEXT_SERVICE_MAP) (PStr current_service)
  = match assoc current_service NEXT_SERVICE_MAP with
    | Some next_service => Ok next_service
    | None => Err (key_error (PStr current_service))
    end.
Proof. reflexivity. Qed.

(** The function, run up to the publish call: the routing table has an entry
    and the topic is read from the configuration with a role assumed. *)
Lemma send_next_service_message_run env tr current_service next_service package_id config :
  assoc current_service NEXT_SERVICE_MAP = Some next_service ->
  let tr1 := (tr ++ [ELog ("Starting service " ++ py_str next_service)])%list in
  let tr2 := (tr1 ++ [EAssumeRole "sns"])%list in
  let message := "Start service " ++ py_str next_service
                 ++ " for package " ++ py_str package_id in
  let attributes := start_message_attributes package_id next_service in
  let swallowed := [ELog ("No next service found for " ++ current_service)] in
  let outcome (e : exn) (t : Trace) : Result pyval * Trace :=
    if is_KeyError e then (Ok PNone, (t ++ swallowed)%list) else (Err e, t) in
  send_next_service_message [PStr current_service; package_id; config] env tr
  = match assume_role env tr1 "sns" with
    | Some e => outcome e tr2
    | None =>
        match py_getitem config (PStr "SERVICE_START_SNS_TOPIC") with
        | Err e => outcome e tr2
        | Ok topic =>
            let tr3 := (tr2 ++ [EPublish topic message attributes])%list in
            match sns_publish env tr2 topic message attributes with
            | Err e => outcome e tr3
            | Ok _ =>
                (Ok PNone,
                 (tr3 ++ [ELog ("Message to start service " ++ py_str next_service
                                ++ " for package " ++ py_str package_id ++ " sent.")])%list)
            end
        end
    end.
Proof.
  intros Hnext tr1 tr2 message attributes swallowed outcome.
  unfold send_next_service_message, def3, send_next_service_message_body, try_except.
  rewrite bind_lift, next_service_lookup, Hnext.
  unfold bind at 1. cbn [emit]. fold tr1.
  unfold bind at 1, get_client_with_role. fold tr2.
  destruct (assume_role env tr1 "sns") as [e|].
  { subst outcome; cbn beta. destruct (is_KeyError e); reflexivity. }
  unfold item. rewrite bind_lift.
  destruct (py_getitem config (PStr "SERVICE_START_SNS_TOPIC")) as [topic|e].
  2:{ subst outcome; cbn beta. destruct (is_KeyError e); reflexivity. }
  unfold bind at 1, client_publish. cbn [String.eqb]. fold message attributes.
  destruct (sns_publish env tr2 topic message attributes) as [v|e].
  - reflexivity.
  - subst outcome; cbn beta. destruct (is_KeyError e); reflexivity.
Qed.

(** C5, amended.  A service without an entry in the routing table: nothing
    is published and the call returns normally.  A service with an entry, a
    role assumed and a topic configured: exactly one publish, to that topic,
    with the three attributes [package_id], [requested_status = "START"] and
    [service = ] the mapped name.  A service with an entry, but the role
    refused or no topic to be read from the configuration: nothing is
    published. *)
Theorem send_next_service_message_publishes_once :
  forall env tr (current_service : string) (package_id config : pyval),
    (assoc current_service NEXT_SERVICE_MAP = None ->
     send_next_service_message [PStr current_service; package_id; config] env tr
     = (Ok PNone, (tr ++ [ELog ("No next service found for " ++ current_service)])%list))
    /\
    (forall next_service topic,
        assoc current_service NEXT_SERVICE_MAP = Some next_service ->
        assume_role env (tr ++ [ELog ("Starting service " ++ py_str next_service)])%list
                    "sns" = None ->
        py_getitem config (PStr "SERVICE_START_SNS_TOPIC") = Ok topic ->
        exists r before message after,
          send_next_service_message [PStr current_service; package_id; config] env tr
          = (r, (tr ++ before
                    ++ [EPublish topic message
                          (PDict [("package_id",
                                   PDict [("DataType", PStr "String");
                                          ("StringValue", package_id)]);
                                  ("requested_status",
                                   PDict [("DataType", PStr "String");
                                          ("StringValue", PStr "START")]);
                                  ("service",
                                   PDict [("DataType", PStr "String");
                                          ("StringValue", next_service)])])]
                    ++ after)%list)
          /\ filter is_publish before = []
          /\ filter is_publish after = [])
    /\
    (forall next_service,
        assoc current_service NEXT_SERVICE_MAP = Some next_service ->
        assume_role env (tr ++ [ELog ("Starting service " ++ py_str next_service)])%list
                    "sns" <> None
        \/ (exists e, py_getitem config (PStr "SERVICE_START_SNS_TOPIC") = Err e) ->
        exists r effects,
          send_next_service_message [PStr current_service; package_id; config] env tr
          = (r, (tr ++ effects)%list)
          /\ filter is_publish effects = []).
Proof.
  intros env tr current_service package_id config. split; [|split].
  - intros Habsent.
    unfold send_next_service_message, def3, send_next_service_message_body, try_except.
    rewrite bind_lift, next_service_lookup, Habsent. reflexivity.
  - intros next_service topic Hnext Hrole Htopic.
    rewrite (send_next_service_message_run _ _ _ _ _ _ Hnext), Hrole, Htopic.
    cbv zeta. unfold start_message_attributes, string_attribute.
    set (before := [ELog ("Starting service " ++ py_str next_service); EAssumeRole "sns"]).
    set (message := "Start service " ++ py_str next_service
                    ++ " for package " ++ py_str package_id).
    set (attributes := PDict _).
    replace ((tr ++ [ELog ("Starting service " ++ py_str next_service)])
               ++ [EAssumeRole "sns"])%list
      with (tr ++ before)%list by (subst before; rewrite <- app_assoc; reflexivity).
    destruct (sns_publish env (tr ++ before)%list topic message attributes) as [v|e'].
    + exists (Ok PNone), before, message,
        [ELog ("Message to start service " ++ py_str next_service
               ++ " for package " ++ py_str package_id ++ " sent.")].
      split; [|split; reflexivity].
      rewrite <- !app_assoc. reflexivity.
    + destruct (is_KeyError e').
      * exists (Ok PNone), before, message,
          [ELog ("No next service found for " ++ current_service)].
        split; [|split; reflexivity].
        rewrite <- !app_assoc. reflexivity.
      * exists (Err e'), before, message, [].
        split; [|split; reflexivity].
        rewrite <- !app_assoc. reflexivity.
  - intros next_service Hnext Hstopped.
    rewrite (send_next_service_message_run _ _ _ _ _ _ Hnext). cbv zeta.
    set (starting := ELog ("Starting service " ++ py_str next_service)).
    set (swallowed := ELog ("No next service found for " ++ current_service)).
    destruct (assume_role env (tr ++ [starting])%list "sns") as [e|] eqn:Hassumed.
    { destruct (is_KeyError e).
      - exists (Ok PNone), [starting; EAssumeRole "sns"; swallowed].
        split; [rewrite <- !app_assoc|]; reflexivity.
      - exists (Err e), [starting; EAssumeRole "sns"].
        split; [rewrite <- !app_assoc|]; reflexivity. }
    destruct Hstopped as [Hrole | [e Htopic]]; [exfalso; apply Hrole; exact Hassumed|].
    rewrite Htopic.
    destruct (is_KeyError e).
    + exists (Ok PNone), [starting; EAssumeRole "sns"; swallowed].
      split; [rewrite <- !app_assoc|]; reflexivity.
    + exists (Err e), [starting; EAssumeRole "sns"].
      split; [rewrite <- !app_assoc|]; reflexivity.
Qed.

(** [ursa_major] is routed to [fornax], [foo] is routed nowhere. *)
Lemma send_next_service_message_publishes_once_witness :
  send_next_service_message [PStr "foo"; PStr "123456789"; PDict []] (calm_env [] []) []
  = (Ok PNone, [ELog "No next service found for foo"])
  /\ exists r before message after,
      send_next_service_message
        [PStr "ursa_major"; PStr "123456789";
         PDict [("SERVICE_START_SNS_TOPIC", PStr "arn:aws:sns:us-east-1:123:start")]]
        (calm_env [] []) []
      = (r, ([] ++ before
                ++ [EPublish (PStr "arn:aws:sns:us-east-1:123:start") message
                      (PDict [("package_id",
                               PDict [("DataType", PStr "String");
                                      ("StringValue", PStr "123456789")]);
                              ("requested_status",
                               PDict [("DataType", PStr "String");
                                      ("StringValue", PStr "START")]);
                              ("service",
                               PDict [("DataType", PStr "String");
                                      ("StringValue", PStr "fornax")])])]
                ++ after)%list)
      /\ filter is_publish before = []
      /\ filter is_publish after = [].
Proof.
  split.
  - exact (proj1 (send_next_service_message_publishes_once (calm_env [] []) []
                    "foo" (PStr "123456789") (PDict [])) eq_refl).
  - exact (proj1 (proj2 (send_next_service_message_publishes_once (calm_env [] []) []
                           "ursa_major" (PStr "123456789")
                           (PDict [("SERVICE_START_SNS_TOPIC",
                                    PStr "arn:aws:sns:us-east-1:123:start")])))
             (PStr "fornax") (PStr "arn:aws:sns:us-east-1:123:start")
             eq_refl eq_refl eq_refl).
Defined.

(** C5, where the claim fails: [ursa_major] has an entry in the routing
    table and the topic is configured, but the role for the SNS client is
    refused; the call raises before it publishes anything. *)
Lemma refused_role_publishes_nothing :
  let refused := mkExn (OtherError "ClientError") "AccessDenied" in
  let config :=
    PDict [("SERVICE_START_SNS_TOPIC", PStr "arn:aws:sns:us-east-1:123:start")] in
  let run :=
    send_next_service_message [PStr "ursa_major"; PStr "123456789"; config]
      (with_role_error refused (calm_env [] [])) [] in
  assoc "ursa_major" NEXT_SERVICE_MAP = Some (PStr "fornax")
  /\ run = (Err refused, [ELog "Starting service fornax"; EAssumeRole "sns"])
  /\ filter is_publish (snd run) = [].
Proof. repeat split. Qed.

(** X21.  For a service with an entry in the routing table, a failure of
    the publish step (assuming the role, reading the topic from the
    configuration, the publish call) leaves the function as the exception it
    raised when that is not a [KeyError]; a [KeyError] raised there is caught
    and the function returns [None]. *)
Theorem send_next_service_message_propagates :
  forall env tr (current_service : string) next_service (package_id config : pyval),
    assoc current_service NEXT_SERVICE_MAP = Some next_service ->
    let tr1 := (tr ++ [ELog ("Starting service " ++ py_str next_service)])%list in
    let tr2 := (tr1 ++ [EAssumeRole "sns"])%list in
    let message := "Start service " ++ py_str next_service
                   ++ " for package " ++ py_str package_id in
    let result :=
      fst (send_next_service_message [PStr current_service; package_id; config] env tr) in
    let propagates (e : exn) := result = if is_KeyError e then Ok PNone else Err e in
    (forall e, assume_role env tr1 "sns" = Some e -> propagates e)
    /\ (forall e,
           assume_role env tr1 "sns" = None ->
           py_getitem config (PStr "SERVICE_START_SNS_TOPIC") = Err e ->
           propagates e)
    /\ (forall e topic,
           assume_role env tr1 "sns" = None ->
           py_getitem config (PStr "SERVICE_START_SNS_TOPIC") = Ok topic ->
           sns_publish env tr2 topic message
             (start_message_attributes package_id next_service) = Err e ->
           propagates e).
Proof.
  intros env tr current_service next_service package_id config Hnext
         tr1 tr2 message result propagates.
  subst result propagates.
  rewrite (send_next_service_message_run _ _ _ _ _ _ Hnext). cbv zeta.
  fold tr1 tr2 message.
  split; [|split].
  - intros e ->. destruct (is_KeyError e); reflexivity.
  - intros e -> ->. destruct (is_KeyError e); reflexivity.
  - intros e topic -> -> ->. destruct (is_KeyError e); reflexivity.
Qed.

(** * The configuration loader *)

(** ** [split("/")] and the final segment *)

Lemma last_segment_no_slash (s : string) :
  contains_char slash s = false -> last_segment s = s.
Proof.
  destruct s as [|a s']; [reflexivity|].
  cbn [contains_char last_segment]. intros H.
  apply orb_false_iff in H as [Ha Hs]. rewrite Hs, Ha. reflexivity.
Qed.

Lemma split_on_no_slash (s : string) :
  contains_char slash s = false -> split_on slash s = [s].
Proof.
  induction s as [|a s' IH]; [reflexivity|].
  cbn [contains_char split_on]. intros H.
  apply orb_false_iff in H as [Ha Hs]. rewrite Ha, (IH Hs). reflexivity.
Qed.

Lemma split_on_not_nil (s : string) : split_on slash s <> [].
Proof.
  destruct s as [|a s']; cbn [split_on]; [discriminate|].
  destruct (Ascii.eqb a slash); [discriminate|].
  destruct (split_on slash s'); discriminate.
Qed.

Lemma split_on_slash (s : string) :
  contains_char slash s = true ->
  exists h h' t, split_on slash s = h :: h' :: t.
Proof.
  induction s as [|a s' IH]; [discriminate|].
  cbn [contains_char split_on]. intros H.
  destruct (Ascii.eqb a slash).
  - pose proof (split_on_not_nil s') as Hn.
    destruct (split_on slash s') as [|h t]; [contradiction|].
    exists "", h, t. reflexivity.
  - cbn [orb] in H. destruct (IH H) as (h & h' & t & ->).
    exists (String a h), h', t. reflexivity.
Qed.

Lemma split_on_last (s : string) :
  last (split_on slash s) "" = last_segment s.
Proof.
  induction s as [|a s' IH]; [reflexivity|].
  cbn [split_on last_segment].
  destruct (contains_char slash s') eqn:Hs.
  - destruct (split_on_slash s' Hs) as (h & h' & t & E).
    rewrite E in IH |- *.
    destruct (Ascii.eqb a slash).
    + change (last ("" :: h :: h' :: t) "") with (last (h :: h' :: t) ""). exact IH.
    + change (last (String a h :: h' :: t) "") with (last (h' :: t) "").
      rewrite <- IH. reflexivity.
  - rewrite (split_on_no_slash s' Hs).
    destruct (Ascii.eqb a slash); reflexivity.
Qed.

Lemma nth_error_last {A} (l : list A) (d : A) :
  l <> [] -> nth_error l (length l - 1) = Some (last l d).
Proof.
  induction l as [|x l IH]; [contradiction|]. intros _.
  destruct l as [|y l']; [reflexivity|].
  replace (length (x :: y :: l') - 1)%nat with (S (length (y :: l') - 1))
    by (cbn [length]; lia).
  change (last (x :: y :: l') d) with (last (y :: l') d).
  cbn [nth_error]. apply IH. discriminate.
Qed.

Lemma final_index (l : list pyval) (d : pyval) :
  l <> [] -> py_getitem (PList l) (PInt (Z.of_nat (length l) - 1)) = Ok (last l d).
Proof.
  intros Hl. cbn [py_getitem]. unfold list_index.
  assert (Hlen : (1 <= length l)%nat) by (destruct l; [contradiction | cbn; lia]).
  assert (Hlt : (Z.of_nat (length l) - 1 <? 0)%Z = false) by (apply Z.ltb_ge; lia).
  cbv zeta. rewrite !Hlt.
  replace (Z.to_nat (Z.of_nat (length l) - 1)) with (length l - 1)%nat by lia.
  rewrite (nth_error_last l d Hl). reflexivity.
Qed.

Lemma last_map_PStr (l : list string) :
  last (map PStr l) (PStr "") = PStr (last l "").
Proof.
  induction l as [|x l IH]; [reflexivity|].
  destruct l as [|y l']; [reflexivity|].
  change (last (map PStr (x :: y :: l')) (PStr "")) with (last (map PStr (y :: l')) (PStr "")).
  rewrite IH. reflexivity.
Qed.

(** ** One turn of the loop, and the loop *)

Lemma load_param_parameter configuration param entry :
  is_parameter param entry ->
  load_param configuration param
  = Ok (dict_set (last_segment (fst entry)) (snd entry) configuration).
Proof.
  intros [Hname Hvalue]. unfold load_param.
  rewrite Hname. cbn [py_split_slash py_len].
  rewrite (final_index _ (PStr "")).
  - rewrite last_map_PStr, split_on_last, Hvalue. reflexivity.
  - intros H. apply map_eq_nil in H. exact (split_on_not_nil _ H).
Qed.

Lemma load_param_nameless configuration param :
  (forall name, py_get param "Name" PNone <> Ok (PStr name)) ->
  exists e, load_param configuration param = Err e.
Proof.
  intros Hname. unfold load_param.
  destruct (py_get param "Name" PNone) as [name|e]; [|eauto].
  destruct name; try (eexists; reflexivity).
  exfalso. exact (Hname s eq_refl).
Qed.

Lemma load_params_parameters params entries rest configuration :
  Forall2 is_parameter params entries ->
  load_params (params ++ rest) configuration
  = load_params rest (settings_from configuration entries).
Proof.
  intros H. revert configuration.
  induction H as [|param entry params entries Hp _ IH]; intros configuration.
  - reflexivity.
  - cbn [app load_params]. rewrite (load_param_parameter _ _ _ Hp). apply IH.
Qed.

(** ** The function *)

Lemma get_config_run (path : pyval) env tr :
  let tr1 := (tr ++ [EAssumeRole "ssm"])%list in
  let tr2 := (tr1 ++ [ESsmGetParametersByPath path false true])%list in
  get_config [path] env tr
  = match assume_role env tr "ssm" with
    | Some e => (Ok (PDict []), (tr1 ++ report e)%list)
    | None =>
        match ssm_get_parameters_by_path env tr1 path with
        | Err e => (Ok (PDict []), (tr2 ++ report e)%list)
        | Ok param_details =>
            match py_get param_details "Parameters" (PList []) with
            | Err e => (Ok (PDict []), (tr2 ++ report e)%list)
            | Ok parameters =>
                match py_iter parameters with
                | Err e => (Ok (PDict []), (tr2 ++ report e)%list)
                | Ok params =>
                    match load_params params [] with
                    | (configuration, Some e) =>
                        (Ok (PDict configuration), (tr2 ++ report e)%list)
                    | (configuration, None) => (Ok (PDict configuration), tr2)
                    end
                end
            end
        end
    end.
Proof.
  intros tr1 tr2.
  unfold get_config, def1, get_config_body.
  unfold bind at 1, get_client_with_role. fold tr1.
  destruct (assume_role env tr "ssm") as [e|]; [reflexivity|].
  unfold bind at 1, client_get_parameters_by_path. cbn [String.eqb Ascii.eqb Bool.eqb].
  fold tr2.
  destruct (ssm_get_parameters_by_path env tr1 path) as [param_details|e]; [|reflexivity].
  rewrite bind_lift.
  destruct (py_get param_details "Parameters" (PList [])) as [parameters|e]; [|reflexivity].
  unfold lift.
  destruct (py_iter parameters) as [params|e]; [|reflexivity].
  destruct (load_params params []) as [configuration [e|]]; reflexivity.
Qed.

(** ** The mapping, read by key *)

Lemma assoc_dict_set {V} (k k' : string) (v : V) (d : list (string * V)) :
  assoc k (dict_set k' v d) = if String.eqb k k' then Some v else assoc k d.
Proof.
  induction d as [|[k0 v0] d IH]; cbn [dict_set assoc]; [reflexivity|].
  destruct (String.eqb k' k0) eqn:E0; cbn [assoc].
  - apply String.eqb_eq in E0; subst k0.
    destruct (String.eqb k k'); reflexivity.
  - destruct (String.eqb k k0) eqn:E1.
    + apply String.eqb_eq in E1; subst k0.
      rewrite String.eqb_sym, E0. reflexivity.
    + exact IH.
Qed.

Lemma assoc_settings (k : string) (entries : list (string * pyval)) :
  assoc k (settings entries) = setting k entries.
Proof.
  unfold settings, setting, settings_from.
  induction entries as [|entry entries IH] using rev_ind; [reflexivity|].
  rewrite fold_left_app, map_app, rev_app_distr. cbn [fold_left map rev app assoc].
  rewrite assoc_dict_set, IH. reflexivity.
Qed.

(** C9.  [get_config] never raises: whatever the role assumption and the
    parameter store do, it returns a mapping.  When an error occurs, the
    mapping is what the loop had accumulated: nothing when the error comes
    before the loop, the entries read so far when an entry cannot be read.
    When no error occurs, the mapping files every parameter's value under the
    final "/"-separated segment of its name. *)
Theorem get_config_never_raises :
  forall env tr (path : pyval),
    let result := fst (get_config [path] env tr) in
    let tr1 := (tr ++ [EAssumeRole "ssm"])%list in
    (exists configuration, result = Ok (PDict configuration))
    /\ (forall e, assume_role env tr "ssm" = Some e -> result = Ok (PDict []))
    /\ (forall e,
           assume_role env tr "ssm" = None ->
           ssm_get_parameters_by_path env tr1 path = Err e ->
           result = Ok (PDict []))
    /\ (forall param_details params entries,
           assume_role env tr "ssm" = None ->
           ssm_get_parameters_by_path env tr1 path = Ok param_details ->
           py_get param_details "Parameters" (PList []) = Ok (PList params) ->
           Forall2 is_parameter params entries ->
           result = Ok (PDict (settings entries))
           /\ forall k, assoc k (settings entries) = setting k entries)
    /\ (forall param_details params entries unreadable rest,
           assume_role env tr "ssm" = None ->
           ssm_get_parameters_by_path env tr1 path = Ok param_details ->
           py_get param_details "Parameters" (PList [])
           = Ok (PList (params ++ unreadable :: rest)) ->
           Forall2 is_parameter params entries ->
           (forall name, py_get unreadable "Name" PNone <> Ok (PStr name)) ->
           result = Ok (PDict (settings entries))).
Proof.
  intros env tr path result tr1. subst result.
  rewrite get_config_run. cbv zeta. fold tr1.
  split; [|split; [|split; [|split]]].
  - destruct (assume_role env tr "ssm"); [eexists; reflexivity|].
    destruct (ssm_get_parameters_by_path env tr1 path) as [pd|]; [|eexists; reflexivity].
    destruct (py_get pd "Parameters" (PList [])) as [ps|]; [|eexists; reflexivity].
    destruct (py_iter ps) as [l|]; [|eexists; reflexivity].
    destruct (load_params l []) as [c [e|]]; eexists; reflexivity.
  - intros e ->. reflexivity.
  - intros e -> ->. reflexivity.
  - intros pd params entries -> -> -> Hparams. cbn [py_iter].
    split; [|intros; apply assoc_settings].
    rewrite <- (app_nil_r params), (load_params_parameters _ _ _ _ Hparams).
    reflexivity.
  - intros pd params entries unreadable rest -> -> -> Hparams Hbad. cbn [py_iter].
    rewrite (load_params_parameters _ _ _ _ Hparams). cbn [load_params].
    destruct (load_param_nameless (settings_from [] entries) unreadable Hbad) as [e ->].
    reflexivity.
Qed.

(** The test of the loader: entries [foo = bar] and [baz = buzz] under a path
    give [{foo: bar, baz: buzz}]; and an entry without a name ends the loop
    with what came before it. *)
Lemma get_config_never_raises_witness :
  let params := [parameter "/dev/digitized_av_trigger/foo" "bar";
                 parameter "/dev/digitized_av_trigger/baz" "buzz"] in
  let entries := [("/dev/digitized_av_trigger/foo", PStr "bar");
                  ("/dev/digitized_av_trigger/baz", PStr "buzz")] in
  settings entries = [("foo", PStr "bar"); ("baz", PStr "buzz")]
  /\ fst (get_config [PStr "/dev/digitized_av_trigger"] (calm_env params []) [])
     = Ok (PDict (settings entries))
  /\ fst (get_config [PStr "/dev/digitized_av_trigger"]
            (calm_env (params ++ [PDict [("Value", PStr "lost")];
                                  parameter "/dev/digitized_av_trigger/late" "x"]) []) [])
     = Ok (PDict (settings entries)).
Proof.
  intros params entries.
  assert (Hparams : Forall2 is_parameter params entries)
    by (repeat constructor).
  split; [reflexivity|]. split.
  - exact (proj1 (proj1 (proj2 (proj2 (proj2
      (get_config_never_raises (calm_env params []) [] (PStr "/dev/digitized_av_trigger")))))
      _ params entries eq_refl eq_refl eq_refl Hparams)).
  - refine (proj2 (proj2 (proj2 (proj2
      (get_config_never_raises
         (calm_env (params ++ [PDict [("Value", PStr "lost")];
                               parameter "/dev/digitized_av_trigger/late" "x"]) [])
         [] (PStr "/dev/digitized_av_trigger")))))
      _ params entries (PDict [("Value", PStr "lost")])
      [parameter "/dev/digitized_av_trigger/late" "x"]
      eq_refl eq_refl eq_refl Hparams _).
    intros name H. discriminate H.
Defined.

(** * The base URL *)

Lemma rstrip_slashes (n : nat) : rstrip_char slash (slashes n) = "".
Proof.
  induction n as [|n IH]; [reflexivity|].
  cbn [slashes rstrip_char]. rewrite IH. reflexivity.
Qed.

Lemma rstrip_append_slashes (base : string) (n : nat) :
  rstrip_char slash (base ++ slashes n) = rstrip_char slash base.
Proof.
  induction base as [|a base IH]; cbn [String.append rstrip_char].
  - apply rstrip_slashes.
  - rewrite IH. reflexivity.
Qed.

Lemma zodiac_baseurl_run config url env tr :
  zodiac_baseurl (with_baseurl config url) env tr
  = (Ok (PStr (rstrip_char slash url)), tr).
Proof.
  unfold zodiac_baseurl, item, with_baseurl. rewrite bind_lift.
  cbn [py_getitem]. rewrite assoc_dict_set, String.eqb_refl. reflexivity.
Qed.

Lemma item_with_baseurl config url k :
  String.eqb k "ZODIAC_BASEURL" = false ->
  py_getitem (with_baseurl config url) (PStr k) = py_getitem (PDict config) (PStr k).
Proof.
  intros Hk. unfold with_baseurl. cbn [py_getitem].
  rewrite assoc_dict_set, Hk. reflexivity.
Qed.

Lemma bind_ext {A B} (c c' : M A) (k k' : A -> M B) env tr :
  c env tr = c' env tr ->
  (forall a tr1, k a env tr1 = k' a env tr1) ->
  bind c k env tr = bind c' k' env tr.
Proof.
  intros Hc Hk. unfold bind. rewrite Hc.
  destruct (c' env tr) as [[a | e] tr1]; [apply Hk | reflexivity].
Qed.

Lemma try_except_ext {A} (c c' : M A) catches (h : exn -> M A) env tr :
  c env tr = c' env tr ->
  try_except c catches h env tr = try_except c' catches h env tr.
Proof. intros Hc. unfold try_except. rewrite Hc. reflexivity. Qed.

Ltac same_step := apply bind_ext; [try reflexivity | intros ? ?].

Section trailing_slashes.
Variables (base : string) (n m : nat) (config : list (string * pyval)).

Let c1 : pyval := with_baseurl config (base ++ slashes n).
Let c2 : pyval := with_baseurl config (base ++ slashes m).

Lemma zodiac_baseurl_same env tr : zodiac_baseurl c1 env tr = zodiac_baseurl c2 env tr.
Proof.
  unfold c1, c2. rewrite !zodiac_baseurl_run, !rstrip_append_slashes. reflexivity.
Qed.

Lemma update_package_same h attributes env tr :
  update_package h [attributes; c1] env tr = update_package h [attributes; c2] env tr.
Proof.
  unfold update_package, def2, update_package_body.
  do 3 same_step. same_step; [apply zodiac_baseurl_same|]. reflexivity.
Qed.

Lemma update_events_same me cid h attributes env tr :
  update_events me cid h [attributes; c1] env tr
  = update_events me cid h [attributes; c2] env tr.
Proof.
  unfold update_events, def2, update_events_body.
  do 2 same_step. same_step; [apply zodiac_baseurl_same|].
  do 2 same_step.
  match goal with |- context [Nat.leb ?x 1] => destruct (Nat.leb x 1) end;
    [|reflexivity].
  do 4 same_step. same_step; [apply zodiac_baseurl_same|]. reflexivity.
Qed.

Lemma send_next_service_message_same service package_id env tr :
  send_next_service_message [service; package_id; c1] env tr
  = send_next_service_message [service; package_id; c2] env tr.
Proof.
  unfold send_next_service_message, def3, send_next_service_message_body.
  apply try_except_ext. do 3 same_step.
  same_step; [|reflexivity].
  unfold item, lift, c1, c2. rewrite !item_with_baseurl by reflexivity. reflexivity.
Qed.
End trailing_slashes.

(** C10.  Two configurations that differ only in the "/" characters that end
    [ZODIAC_BASEURL]: the base URL the functions append their paths to is the
    same, stripped of every trailing "/", and so are [update_package],
    [update_events] and [lambda_handler], whatever [send_http_request] they
    hand their URLs to. *)
Theorem trailing_slashes_are_stripped :
  forall (base : string) (n m : nat) (config : list (string * pyval)),
    let c1 := with_baseurl config (base ++ slashes n) in
    let c2 := with_baseurl config (base ++ slashes m) in
    (forall env tr,
        zodiac_baseurl c1 env tr = (Ok (PStr (rstrip_char slash base)), tr)
        /\ zodiac_baseurl c2 env tr = (Ok (PStr (rstrip_char slash base)), tr))
    /\ (forall h attributes env tr,
           update_package h [attributes; c1] env tr
           = update_package h [attributes; c2] env tr)
    /\ (forall me cid h attributes env tr,
           update_events me cid h [attributes; c1] env tr
           = update_events me cid h [attributes; c2] env tr)
    /\ (forall h cid event context env tr,
           lambda_handler (mock "get_config" (fun _ => Ok c1))
             (matching_events h) (update_package h)
             (update_events (matching_events h) cid h)
             send_next_service_message [event; context] env tr
           = lambda_handler (mock "get_config" (fun _ => Ok c2))
               (matching_events h) (update_package h)
               (update_events (matching_events h) cid h)
               send_next_service_message [event; context] env tr).
Proof.
  intros base n m config c1 c2. split; [|split; [|split]].
  - intros env tr. unfold c1, c2.
    rewrite !zodiac_baseurl_run, !rstrip_append_slashes. split; reflexivity.
  - intros h attributes env tr. apply update_package_same.
  - intros me cid h attributes env tr. apply update_events_same.
  - intros h cid event context env tr.
    unfold lambda_handler, def2, lambda_handler_body.
    do 2 same_step.
    rewrite !bind_mock. cbn beta iota.
    do 6 same_step.
    same_step; [apply zodiac_baseurl_same|].
    do 3 same_step.
    match goal with |- context [Nat.eqb ?x 0] => destruct (Nat.eqb x 0) end;
      [|reflexivity].
    same_step; [apply update_package_same|].
    same_step; [apply update_events_same|].
    same_step.
    match goal with |- context [py_eq ?x ?y] => destruct (py_eq x y) end;
      [|reflexivity].
    do 2 same_step.
    same_step; [|reflexivity].
    apply send_next_service_message_same.
Qed.

(** * The handler *)

(** The handler with its callees patched, as one expression. *)
Lemma mocked_lambda_handler_run cs ms us es ns event context env tr :
  let tr1 := (tr ++ [ELog "Message received."; ECall "get_config" [config_path env]])%list in
  mocked_lambda_handler cs ms us es ns [event; context] env tr
  = match cs [config_path env] with
    | Err e => (Err e, tr1)
    | Ok config =>
    match message_attributes event with
    | Err e => (Err e, tr1)
    | Ok attributes =>
    match attribute_value attributes "package_id" with
    | Err e => (Err e, tr1)
    | Ok package_id =>
    match attribute_value attributes "service" with
    | Err e => (Err e, tr1)
    | Ok service =>
    match baseurl_of config with
    | Err e => (Err e, tr1)
    | Ok baseurl =>
    match attribute_value attributes "outcome" with
    | Err e => (Err e, tr1)
    | Ok outcome =>
        let check := ECall "matching_events" [package_id; service; baseurl; outcome] in
        let package := ECall "update_package" [attributes; config] in
        let events := ECall "update_events" [attributes; config] in
        let trigger := ECall "send_next_service_message" [service; package_id; config] in
        match ms [package_id; service; baseurl; outcome] with
        | Err e => (Err e, (tr1 ++ [check])%list)
        | Ok found =>
        match py_len found with
        | Err e => (Err e, (tr1 ++ [check])%list)
        | Ok (S _) => (Ok PNone, (tr1 ++ [check; ELog "Duplicate event found"])%list)
        | Ok O =>
        match us [attributes; config] with
        | Err e => (Err e, (tr1 ++ [check; package])%list)
        | Ok _ =>
        match es [attributes; config] with
        | Err e => (Err e, (tr1 ++ [check; package; events])%list)
        | Ok _ =>
            if py_eq outcome (PStr "SUCCESS") then
              (match ns [service; package_id; config] with
               | Ok _ => Ok PNone
               | Err e => Err e
               end, (tr1 ++ [check; package; events; trigger])%list)
            else (Ok PNone, (tr1 ++ [check; package; events])%list)
        end end end end end end end end end end.
Proof.
  intros tr1.
  unfold mocked_lambda_handler, lambda_handler, def2, lambda_handler_body.
  rewrite bind_emit. unfold bind at 1, full_config_path. fold (config_path env).
  rewrite bind_mock, <- app_assoc. cbn [app]. fold tr1.
  destruct (cs [config_path env]) as [config|]; [|reflexivity].
  rewrite bind_message_attributes.
  destruct (message_attributes event) as [attributes|]; [|reflexivity].
  rewrite bind_item_value.
  destruct (attribute_value attributes "package_id") as [package_id|] eqn:Hp; [|reflexivity].
  rewrite bind_item_value.
  destruct (attribute_value attributes "service") as [service|] eqn:Hs; [|reflexivity].
  rewrite bind_zodiac_baseurl.
  destruct (baseurl_of config) as [baseurl|]; [|reflexivity].
  rewrite bind_item_value.
  destruct (attribute_value attributes "outcome") as [outcome|] eqn:Ho; [|reflexivity].
  rewrite bind_mock. cbv zeta.
  destruct (ms [package_id; service; baseurl; outcome]) as [found|]; [|reflexivity].
  rewrite bind_lift.
  destruct (py_len found) as [[|n]|];
    [| cbn [Nat.eqb]; rewrite bind_emit, <- app_assoc; reflexivity | reflexivity].
  cbn [Nat.eqb]. rewrite bind_mock, <- app_assoc. cbn [app].
  destruct (us [attributes; config]); [|reflexivity].
  rewrite bind_mock, <- app_assoc. cbn [app].
  destruct (es [attributes; config]); [|reflexivity].
  rewrite bind_bind, bind_lift.
  pose proof (declared_again _ _ Ho) as Hd.
  destruct (py_get attributes "outcome" (PDict [])) as [o|]; [|discriminate].
  rewrite bind_lift, Hd.
  destruct (py_eq outcome (PStr "SUCCESS")); [|reflexivity].
  rewrite bind_item_value, Hs, bind_item_value, Hp, bind_mock, <- app_assoc. cbn [app].
  destruct (ns [service; package_id; config]); reflexivity.
Qed.

Lemma py_eq_str (v : pyval) (s : string) : py_eq v (PStr s) = true <-> v = PStr s.
Proof.
  destruct v; cbn [py_eq]; split; try discriminate; intros H.
  - apply String.eqb_eq in H. congruence.
  - inversion H. apply String.eqb_refl.
Qed.

Ltac no_call :=
  let H := fresh in
  intros H; cbn [In] in H;
  repeat match goal with
         | H : _ \/ _ |- _ => destruct H
         | H : exists _, _ |- _ => destruct H
         | H : _ /\ _ |- _ => destruct H
         | H : False |- _ => contradiction
         | H : ECall _ _ = ECall _ _ |- _ => inversion H; clear H; subst
         | H : _ = _ |- _ => discriminate H
         end;
  try congruence.

Ltac refute :=
  let H := fresh in
  intros H;
  repeat match goal with
         | H : exists _, _ |- _ => destruct H
         | H : _ /\ _ |- _ => destruct H
         end;
  congruence.

(** C4, amended.  In [lambda_handler], with the names it calls patched as
    the tests patch them: [send_next_service_message] is called if and only
    if the duplicate check returned zero matches, [update_package] and
    [update_events] both returned, and the outcome the message declares is
    the string ["SUCCESS"].  For any other outcome, ["success"] or none at
    all, it is not called. *)
Theorem trigger_iff_upserts_return_and_success :
  forall cs ms us es ns event context env tr,
  exists effects,
    snd (mocked_lambda_handler cs ms us es ns [event; context] env tr)
    = (tr ++ effects)%list
    /\ (triggered effects
        <-> check_found_nothing cs ms env event
            /\ upserts_returned cs us es env event
            /\ declared_outcome event = Ok (PStr "SUCCESS"))
    /\ (declared_outcome event <> Ok (PStr "SUCCESS") -> ~ triggered effects).
Proof.
  intros cs ms us es ns event context env tr.
  assert (Hmain : exists effects,
             snd (mocked_lambda_handler cs ms us es ns [event; context] env tr)
             = (tr ++ effects)%list
             /\ (triggered effects
                 <-> check_found_nothing cs ms env event
                     /\ upserts_returned cs us es env event
                     /\ declared_outcome event = Ok (PStr "SUCCESS"))).
  { rewrite mocked_lambda_handler_run. cbv zeta.
    unfold triggered, check_found_nothing, upserts_returned, declared_outcome.
    set (start := [ELog "Message received."; ECall "get_config" [config_path env]]).
    destruct (cs [config_path env]) as [config|] eqn:Hcs;
      [|exists start; split; [reflexivity | subst start; split; [no_call | refute]]].
    destruct (message_attributes event) as [attributes|] eqn:Ha;
      [|exists start; split; [reflexivity | subst start; split; [no_call | refute]]].
    destruct (attribute_value attributes "package_id") as [package_id|] eqn:Hp;
      [|exists start; split; [reflexivity | subst start; split; [no_call | refute]]].
    destruct (attribute_value attributes "service") as [service|] eqn:Hs;
      [|exists start; split; [reflexivity | subst start; split; [no_call | refute]]].
    destruct (baseurl_of config) as [baseurl|] eqn:Hb;
      [|exists start; split; [reflexivity | subst start; split; [no_call | refute]]].
    destruct (attribute_value attributes "outcome") as [outcome|] eqn:Ho;
      [|exists start; split; [reflexivity | subst start; split; [no_call | refute]]].
    set (check := ECall "matching_events" [package_id; service; baseurl; outcome]).
    destruct (ms [package_id; service; baseurl; outcome]) as [found|] eqn:Hms.
    2:{ exists (start ++ [check])%list.
        split; [cbn [snd]; rewrite <- app_assoc; reflexivity|].
        subst start check. cbn [app]. split; [no_call | refute]. }
    destruct (py_len found) as [[|n]|] eqn:Hlen.
    3:{ exists (start ++ [check])%list.
        split; [cbn [snd]; rewrite <- app_assoc; reflexivity|].
        subst start check. cbn [app]. split; [no_call | refute]. }
    2:{ exists (start ++ [check; ELog "Duplicate event found"])%list.
        split; [cbn [snd]; rewrite <- app_assoc; reflexivity|].
        subst start check. cbn [app]. split; [no_call | refute]. }
    destruct (us [attributes; config]) as [u|] eqn:Hus.
    2:{ eexists. split; [cbn [snd]; rewrite <- app_assoc; reflexivity|].
        subst start check. cbn [app]. split; [no_call | refute]. }
    destruct (es [attributes; config]) as [v|] eqn:Hes.
    2:{ eexists. split; [cbn [snd]; rewrite <- app_assoc; reflexivity|].
        subst start check. cbn [app]. split; [no_call | refute]. }
    destruct (py_eq outcome (PStr "SUCCESS")) eqn:Hsuccess.
    - apply py_eq_str in Hsuccess. subst outcome.
      eexists. split; [cbn [snd]; rewrite <- app_assoc; reflexivity|].
      subst start check. cbn [app]. split; intros _.
      + split; [|split; [|reflexivity]].
        * exists config, attributes, package_id, service, baseurl, (PStr "SUCCESS"), found.
          repeat split; assumption || reflexivity.
        * exists config, attributes, u, v. repeat split; assumption || reflexivity.
      + eexists. cbn [In]. do 5 right. left. reflexivity.
    - eexists. split; [cbn [snd]; rewrite <- app_assoc; reflexivity|].
      subst start check. cbn [app]. split.
      + no_call.
      + intros (_ & _ & Hout). inversion Hout; subst outcome.
        cbn [py_eq] in Hsuccess. rewrite String.eqb_refl in Hsuccess. discriminate. }
  destruct Hmain as (effects & Htrace & Hiff).
  exists effects. split; [exact Htrace|]. split; [exact Hiff|].
  intros Hother Hcalled. apply Hother. apply Hiff. exact Hcalled.
Qed.

(** ** Runs without writes *)

Lemma writes_app (tr l : Trace) : writes (tr ++ l)%list = (writes tr ++ writes l)%list.
Proof. apply filter_app. Qed.

Lemma writes_snoc (tr : Trace) (e : Effect) :
  is_write e = false -> writes (tr ++ [e])%list = writes tr.
Proof.
  intros H. rewrite writes_app. unfold writes at 2. cbn [filter]. rewrite H.
  apply app_nil_r.
Qed.

Lemma quiet_pure {A} (c : M A) : pure c -> quiet c.
Proof.
  intros Hc env tr r tr' H. destruct (Hc env tr) as [r0 H0].
  rewrite H0 in H. congruence.
Qed.

Lemma quiet_fails {A} (c : M A) : fails_quietly c -> quiet c.
Proof.
  intros Hc env tr r tr' H. destruct (Hc env tr) as [e H0].
  rewrite H0 in H. congruence.
Qed.

Lemma quiet_raise {A} (e : exn) : quiet (@raise A e).
Proof. apply quiet_fails, fails_quietly_raise. Qed.

Lemma returns_fails {A} (c : M A) (Q : A -> Prop) : fails_quietly c -> returns c Q.
Proof.
  intros Hc env tr a tr' H. destruct (Hc env tr) as [e H0].
  rewrite H0 in H. discriminate.
Qed.

Lemma quiet_get_config (args : list pyval) : quiet (get_config args).
Proof.
  destruct args as [|path [|x rest]]; try apply quiet_raise.
  intros env tr r tr'. rewrite get_config_run. cbv zeta.
  assert (Hreport : forall t e, writes (t ++ report e)%list = writes t).
  { intros t e. rewrite writes_app. apply app_nil_r. }
  destruct (assume_role env tr "ssm").
  { intros H; inversion H; subst. rewrite Hreport. apply writes_snoc; reflexivity. }
  assert (H2 : writes ((tr ++ [EAssumeRole "ssm"])
                         ++ [ESsmGetParametersByPath path false true])%list = writes tr)
    by (rewrite !writes_snoc by reflexivity; reflexivity).
  destruct (ssm_get_parameters_by_path _ _ _) as [pd|];
    [|intros H; inversion H; subst; rewrite Hreport; exact H2].
  destruct (py_get pd "Parameters" (PList [])) as [ps|];
    [|intros H; inversion H; subst; rewrite Hreport; exact H2].
  destruct (py_iter ps) as [l|];
    [|intros H; inversion H; subst; rewrite Hreport; exact H2].
  destruct (load_params l []) as [c [e|]];
    intros H; inversion H; subst; rewrite ?Hreport; exact H2.
Qed.

Lemma select_run cond iterable env tr :
  select cond iterable env tr
  = (match py_iter iterable with
     | Err e => Err e
     | Ok l => match comprehension cond l with
               | Err e => Err e
               | Ok kept => Ok (PList kept)
               end
     end, tr).
Proof.
  unfold select. rewrite bind_lift.
  destruct (py_iter iterable) as [l|]; [|reflexivity].
  rewrite bind_lift. destruct (comprehension cond l); reflexivity.
Qed.

(** The duplicate check over a patched [send_http_request], as one
    expression. *)
Lemma patched_matching_events_run answer package_id service_name baseurl outcome env tr :
  let url := PStr (py_str baseurl ++ "/packages/" ++ py_str package_id ++ "/events") in
  let cond := if py_truthy outcome
              then service_and_outcome_match service_name outcome
              else service_matches service_name in
  Patched.matching_events answer [package_id; service_name; baseurl; outcome] env tr
  = (match answer [url; PStr "get"] with
     | Err e => Err e
     | Ok package_events =>
         match py_iter package_events with
         | Err e => Err e
         | Ok l => match comprehension cond l with
                   | Err e => Err e
                   | Ok kept => Ok (PList kept)
                   end
         end
     end, (tr ++ [ECall "send_http_request" [url; PStr "get"]])%list).
Proof.
  intros url cond.
  unfold Patched.matching_events, matching_events, def3_1, matching_events_body,
    Patched.send_http_request.
  rewrite bind_mock. fold url.
  destruct (answer [url; PStr "get"]) as [package_events|]; [|reflexivity].
  subst cond. destruct (py_truthy outcome); apply select_run.
Qed.

Lemma quiet_patched_matching_events answer (args : list pyval) :
  quiet (Patched.matching_events answer args).
Proof.
  assert (Hget : forall url tr,
             writes (tr ++ [ECall "send_http_request" [url; PStr "get"]])%list
             = writes tr)
    by (intros; apply writes_snoc; reflexivity).
  destruct args as [|a [|b [|c [|d [|x rest]]]]]; try apply quiet_raise.
  - intros env tr r tr' H.
    change (Patched.matching_events answer [a; b; c])
      with (Patched.matching_events answer [a; b; c; PNone]) in H.
    rewrite patched_matching_events_run in H. inversion H. apply Hget.
  - intros env tr r tr' H.
    rewrite patched_matching_events_run in H. inversion H. apply Hget.
Qed.

Lemma comprehension_keeps cond l kept e :
  comprehension cond l = Ok kept -> In e l -> cond e = Ok true -> In e kept.
Proof.
  revert kept. induction l as [|x l IH]; intros kept Hc Hin He; [contradiction|].
  cbn [comprehension] in Hc.
  destruct (cond x) as [keep|] eqn:Hx; [|discriminate].
  destruct (comprehension cond l) as [kept'|]; [|discriminate].
  inversion Hc; subst kept. destruct Hin as [-> | Hin].
  - rewrite He in Hx. inversion Hx; subst keep. left; reflexivity.
  - destruct keep; [right|]; apply (IH kept' eq_refl Hin He).
Qed.

Lemma service_match_of_both service_name outcome e :
  service_and_outcome_match service_name outcome e = Ok true ->
  service_matches service_name e = Ok true.
Proof.
  unfold service_and_outcome_match, service_matches.
  destruct (py_getitem e (PStr "service")) as [s|]; [|discriminate].
  destruct (py_eq s service_name); [reflexivity | discriminate].
Qed.

(** With a matching record in the API's list, the check cannot come back
    empty. *)
Lemma patched_matching_events_finds answer package_id service baseurl outcome events e :
  (forall url, answer [url; PStr "get"] = Ok (PList events)) ->
  In e events ->
  service_and_outcome_match service outcome e = Ok true ->
  returns (Patched.matching_events answer [package_id; service; baseurl; outcome])
          (fun found => py_len found <> Ok 0%nat).
Proof.
  intros Hget Hin He env tr found tr' H.
  rewrite patched_matching_events_run in H. cbv zeta in H.
  rewrite Hget in H. cbn [py_iter] in H.
  match type of H with
  | context [comprehension ?c events] =>
      assert (Hc : c e = Ok true)
        by (destruct (py_truthy outcome);
            [exact He | exact (service_match_of_both _ _ _ He)]);
      destruct (comprehension c events) as [kept|] eqn:Hk; [|discriminate]
  end.
  inversion H; subst found. cbn [py_len].
  pose proof (comprehension_keeps _ _ _ _ Hk Hin Hc) as Hkept.
  destruct kept; [contradiction | discriminate].
Qed.

(** Whatever the five names are bound to: when loading the configuration and
    checking for duplicates write nothing, and the check never comes back
    empty, the handler writes nothing. *)
Lemma lambda_handler_quiet gc me up ue ns event context :
  (forall args, quiet (gc args)) ->
  (forall args, quiet (me args)) ->
  (forall attributes package_id service baseurl outcome,
      message_attributes event = Ok attributes ->
      attribute_value attributes "service" = Ok service ->
      attribute_value attributes "outcome" = Ok outcome ->
      returns (me [package_id; service; baseurl; outcome])
              (fun found => py_len found <> Ok 0%nat)) ->
  quiet (lambda_handler gc me up ue ns [event; context]).
Proof.
  intros Hgc Hme Hfound env tr r tr' H.
  unfold lambda_handler, def2, lambda_handler_body in H.
  rewrite bind_emit in H. unfold bind at 1, full_config_path in H.
  assert (H0 : writes (tr ++ [ELog "Message received."])%list = writes tr)
    by (apply writes_snoc; reflexivity).
  rewrite <- H0.
  apply bind_inv in H as [(config & t1 & Hc & H) | (e & Hc & ->)];
    [|exact (Hgc _ _ _ _ _ Hc)].
  rewrite <- (Hgc _ _ _ _ _ Hc). clear Hc H0.
  rewrite bind_message_attributes in H.
  destruct (message_attributes event) as [attributes|] eqn:Ha; [|congruence].
  rewrite bind_item_value in H.
  destruct (attribute_value attributes "package_id") as [package_id|]; [|congruence].
  rewrite bind_item_value in H.
  destruct (attribute_value attributes "service") as [service|] eqn:Hs; [|congruence].
  rewrite bind_zodiac_baseurl in H.
  destruct (baseurl_of config) as [baseurl|]; [|congruence].
  rewrite bind_item_value in H.
  destruct (attribute_value attributes "outcome") as [outcome|] eqn:Ho; [|congruence].
  apply bind_inv in H as [(found & t2 & Hm & H) | (e & Hm & ->)];
    [|exact (Hme _ _ _ _ _ Hm)].
  rewrite <- (Hme _ _ _ _ _ Hm).
  pose proof (Hfound _ _ _ _ _ eq_refl Hs Ho _ _ _ _ Hm) as Hn.
  rewrite bind_lift in H.
  cbv beta in Hn.
  destruct (py_len found) as [[|n]|].
  - exfalso. apply Hn. reflexivity.
  - cbn [Nat.eqb] in H. rewrite bind_emit in H. inversion H.
    apply writes_snoc. reflexivity.
  - inversion H. reflexivity.
Qed.

(** The module as shipped never gets past the duplicate check: every
    invocation of the handler ends in an exception. *)
Lemma shipped_lambda_handler_raises (args : list pyval) env tr :
  exists e, fst (Shipped.lambda_handler args env tr) = Err e.
Proof.
  destruct args as [|event [|context [|x rest]]];
    [eexists; reflexivity | eexists; reflexivity | | eexists; reflexivity].
  unfold Shipped.lambda_handler, lambda_handler, def2, lambda_handler_body.
  rewrite bind_emit. unfold bind at 1, full_config_path.
  unfold bind at 1. rewrite get_config_run. cbv zeta.
  match goal with
  | |- exists e, fst (let (r, tr') := ?run in _) = Err e =>
      assert (Hrun : exists configuration t, run = (Ok (PDict configuration), t))
  end.
  { destruct (assume_role env _ "ssm"); [do 2 eexists; reflexivity|].
    destruct (ssm_get_parameters_by_path env _ _) as [pd|]; [|do 2 eexists; reflexivity].
    destruct (py_get pd "Parameters" (PList [])) as [ps|]; [|do 2 eexists; reflexivity].
    destruct (py_iter ps) as [l|]; [|do 2 eexists; reflexivity].
    destruct (load_params l []) as [c [e|]]; do 2 eexists; reflexivity. }
  destruct Hrun as (configuration & t & ->).
  rewrite bind_message_attributes.
  destruct (message_attributes event) as [attributes|]; [|eexists; reflexivity].
  rewrite bind_item_value.
  destruct (attribute_value attributes "package_id") as [package_id|];
    [|eexists; reflexivity].
  rewrite bind_item_value.
  destruct (attribute_value attributes "service") as [service|]; [|eexists; reflexivity].
  rewrite bind_zodiac_baseurl.
  destruct (baseurl_of (PDict configuration)) as [baseurl|]; [|eexists; reflexivity].
  rewrite bind_item_value.
  destruct (attribute_value attributes "outcome") as [outcome|]; [|eexists; reflexivity].
  eexists. reflexivity.
Qed.

(** C1.  A message for which an event with the same package, service and
    outcome is on record: the handler issues no package POST, no event POST
    and no publish.  In the module as shipped this holds of every message,
    since the duplicate check raises before anything is written; with
    [send_http_request] patched so that the check gets the API's list, it
    holds whenever that list has a record matching the message. *)
Theorem lambda_handler_duplicate_writes_nothing :
  (forall args, quiet (Shipped.lambda_handler args))
  /\ (forall answer event context attributes service outcome events e,
         message_attributes event = Ok attributes ->
         attribute_value attributes "service" = Ok service ->
         attribute_value attributes "outcome" = Ok outcome ->
         (forall url, answer [url; PStr "get"] = Ok (PList events)) ->
         In e events ->
         service_and_outcome_match service outcome e = Ok true ->
         quiet (Patched.lambda_handler answer [event; context])).
Proof.
  split.
  - intros args.
    destruct args as [|event [|context [|x rest]]];
      [apply quiet_raise | apply quiet_raise | | apply quiet_raise].
    unfold Shipped.lambda_handler. apply lambda_handler_quiet.
    + apply quiet_get_config.
    + intros args. apply quiet_fails, shipped_matching_events_fails.
    + intros. apply returns_fails, shipped_matching_events_fails.
  - intros answer event context attributes service outcome events e
           Ha Hs Ho Hget Hin He.
    unfold Patched.lambda_handler. apply lambda_handler_quiet.
    + apply quiet_get_config.
    + apply quiet_patched_matching_events.
    + intros attributes' package_id service' baseurl outcome' Ha' Hs' Ho'.
      rewrite Ha in Ha'. inversion Ha'; subst attributes'.
      rewrite Hs in Hs'. inversion Hs'; subst service'.
      rewrite Ho in Ho'. inversion Ho'; subst outcome'.
      exact (patched_matching_events_finds _ _ _ _ _ _ _ Hget Hin He).
Qed.

(** * Runs on the inputs of the test-suite *)

(** A duplicate: the API already holds a SUCCESS record of the validation
    service for the package.  With the check able to see it, the handler logs
    the duplicate and returns; as shipped, it raises at the check.  Neither
    writes. *)
Lemma lambda_handler_duplicate_writes_nothing_witness :
  let events := [event_record "SUCCESS" "validation" package_id_fixture "abc"] in
  let env := calm_env [parameter "/dev/digital_ingest/ZODIAC_BASEURL"
                         "https://zodiac.rockarch.org/api/"] events in
  let event := sns_event success_attributes in
  Patched.lambda_handler (zodiac_answers events) [event; PNone] env []
  = (Ok PNone,
     [ELog "Message received."; EAssumeRole "ssm";
      ESsmGetParametersByPath (PStr "/dev/digital_ingest") false true;
      ECall "send_http_request"
        [PStr ("https://zodiac.rockarch.org/api/packages/"
               ++ package_id_fixture ++ "/events"); PStr "get"];
      ELog "Duplicate event found"])
  /\ writes (snd (Patched.lambda_handler (zodiac_answers events) [event; PNone] env []))
     = writes []
  /\ writes (snd (Shipped.lambda_handler [event; PNone] env [])) = writes [].
Proof.
  intros events env event. split; [vm_compute; reflexivity|]. split.
  - apply (proj2 lambda_handler_duplicate_writes_nothing
             (zodiac_answers events) event PNone success_attributes
             (PStr "validation") (PStr "SUCCESS") events
             (event_record "SUCCESS" "validation" package_id_fixture "abc")
             eq_refl eq_refl eq_refl (fun _ => eq_refl) (or_introl eq_refl) eq_refl
             env []
             (fst (Patched.lambda_handler (zodiac_answers events) [event; PNone] env []))).
    apply surjective_pairing.
  - apply (proj1 lambda_handler_duplicate_writes_nothing [event; PNone] env []
             (fst (Shipped.lambda_handler [event; PNone] env []))).
    apply surjective_pairing.
Defined.

(** C4, where the claim fails: the check returned zero matches and the
    message declares ["SUCCESS"], but [update_package] raises; the exception
    ends the handler and the trigger is not called. *)
Lemma upsert_failure_stops_the_trigger :
  let refused := mkExn HTTPError "HTTP error response" in
  let check (_ : list pyval) := Ok (PList []) in
  let run :=
    mocked_lambda_handler (fun _ => Ok config_fixture) check
      (fun _ => Err refused) (fun _ => Ok PNone) (fun _ => Ok PNone)
      [message "validation" "SUCCESS"; PNone] (calm_env [] []) [] in
  check_found_nothing (fun _ => Ok config_fixture) check (calm_env [] [])
    (message "validation" "SUCCESS")
  /\ declared_outcome (message "validation" "SUCCESS") = Ok (PStr "SUCCESS")
  /\ fst run = Err refused
  /\ ~ triggered (snd run).
Proof.
  intros refused check run. split; [|split; [|split]].
  - exists config_fixture,
      (PDict [("package_id", attribute package_id_fixture);
              ("service", attribute "validation");
              ("outcome", attribute "SUCCESS")]),
      (PStr package_id_fixture), (PStr "validation"),
      (PStr "https://zodiac.rockarch.org/api"), (PStr "SUCCESS"), (PList []).
    repeat split.
  - reflexivity.
  - reflexivity.
  - vm_compute. intros [args H].
    repeat (destruct H as [H|H]; [discriminate H|]). exact H.
Qed.

(** The tests of the handler: nothing on record and both upserts return, so
    the trigger is called for ["SUCCESS"]. *)
Lemma trigger_iff_upserts_return_and_success_witness :
  triggered
    (snd (handler_of_the_tests [] [message "validation" "SUCCESS"; PNone]
            (calm_env [] []) [])).
Proof.
  destruct (trigger_iff_upserts_return_and_success
              (fun _ => Ok config_fixture) (fun _ => Ok (PList []))
              (fun _ => Ok PNone) (fun _ => Ok PNone) (fun _ => Ok PNone)
              (message "validation" "SUCCESS") PNone (calm_env [] []) [])
    as (effects & Htrace & Hiff & _).
  unfold handler_of_the_tests. rewrite Htrace. apply Hiff.
  split; [|split; [|reflexivity]].
  - exists config_fixture,
      (PDict [("package_id", attribute package_id_fixture);
              ("service", attribute "validation");
              ("outcome", attribute "SUCCESS")]),
      (PStr package_id_fixture), (PStr "validation"),
      (PStr "https://zodiac.rockarch.org/api"), (PStr "SUCCESS"), (PList []).
    repeat split.
  - exists config_fixture,
      (PDict [("package_id", attribute package_id_fixture);
              ("service", attribute "validation");
              ("outcome", attribute "SUCCESS")]), PNone, PNone.
    repeat split.
Defined.

Example success_starts_next_service :
  called "send_next_service_message"
    (snd (handler_of_the_tests [] [message "validation" "SUCCESS"; PNone] (calm_env [] []) []))
  = true.
Proof. vm_compute. reflexivity. Qed.

Example lowercase_success_starts_nothing :
  called "send_next_service_message"
    (snd (handler_of_the_tests [] [message "validation" "success"; PNone] (calm_env [] []) []))
  = false.
Proof. vm_compute. reflexivity. Qed.

Example failure_starts_nothing :
  called "send_next_service_message"
    (snd (handler_of_the_tests [] [message "validation" "FAILURE"; PNone] (calm_env [] []) []))
  = false.
Proof. vm_compute. reflexivity. Qed.

Example duplicate_starts_nothing :
  called "send_next_service_message"
    (snd (handler_of_the_tests [PDict [("foo", PStr "bar")]]
            [message "validation" "SUCCESS"; PNone] (calm_env [] []) []))
  = false.
Proof. vm_compute. reflexivity. Qed.

(** The publish call is refused by the service: the error leaves the
    function. *)
Lemma send_next_service_message_propagates_witness :
  let e := mkExn (OtherError "ClientError") "AuthorizationError" in
  let config := PDict [("SERVICE_START_SNS_TOPIC",
                        PStr "arn:aws:sns:us-east-1:123:start")] in
  fst (send_next_service_message [PStr "ursa_major"; PStr "123456789"; config]
         (with_publish_error e (calm_env [] [])) [])
  = Err e.
Proof.
  intros e config.
  exact (proj2 (proj2 (send_next_service_message_propagates
                         (with_publish_error e (calm_env [] [])) []
                         "ursa_major" (PStr "fornax") (PStr "123456789") config eq_refl))
           e (PStr "arn:aws:sns:us-east-1:123:start") eq_refl eq_refl eq_refl).
Defined.

(** What [update_events] does with the result of the lookup, the lookup
    patched as in the test of the update: one event found, its identifier is
    sent again and none is generated; two found, the error names the package
    record and the count. *)
Example update_events_with_one_result :
  update_events
    (mock "matching_events"
       (fun _ => Ok (PList [event_record "FAILURE" "validation" package_id_fixture "abc"])))
    construct_event_id (mock "send_http_request" (fun _ => Ok PNone))
    [success_attributes; config_fixture] (calm_env [] []) []
  = (Ok PNone,
     [ECall "matching_events"
        [attribute package_id_fixture; attribute "validation";
         PStr "https://zodiac.rockarch.org/api"];
      ECall "send_http_request"
        [PStr "https://zodiac.rockarch.org/api/events"; PStr "post";
         PDict [("outcome", PStr "SUCCESS"); ("service", PStr "validation");
                ("package", PStr package_id_fixture); ("identifier", PStr "abc")]]]).
Proof. vm_compute. reflexivity. Qed.

Example update_events_with_two_results :
  fst (update_events
         (mock "matching_events"
            (fun _ => Ok (PList [event_record "FAILURE" "validation" package_id_fixture "abc";
                                 event_record "SUCCESS" "validation" package_id_fixture "def"])))
         construct_event_id (mock "send_http_request" (fun _ => Ok PNone))
         [success_attributes; config_fixture] (calm_env [] []) [])
  = Err (mkExn PlainException
           ("Got more than one matching event for package "
            ++ "{'Type': 'String', 'Value': '20f8da26e268418ead4aa2365f816a08'}"
            ++ ", found 2")).
Proof. vm_compute. reflexivity. Qed.
Example repr_attribute :
  py_repr (PDict [("Type", PStr "String"); ("Value", PStr "abc")])
  = "{'Type': 'String', 'Value': 'abc'}".
Proof. reflexivity. Qed.

Example split_path :
  split_on slash "/dev/app/ZODIAC_BASEURL" = [""; "dev"; "app"; "ZODIAC_BASEURL"].
Proof. reflexivity. Qed.

Example rstrip_url :
  rstrip_char slash "https://zodiac.rockarch.org/api//" = "https://zodiac.rockarch.org/api".
Proof. reflexivity. Qed.


(** * The trigger inside the handler *)

(** A message that is no duplicate and declares ["SUCCESS"]: the handler
    ends with the trigger, whatever the trigger is bound to. *)
Lemma lambda_handler_ends_with_trigger
  cs ms us es (ns : binding) event context env tr
  config attributes package_id service baseurl found u v :
  cs [config_path env] = Ok config ->
  message_attributes event = Ok attributes ->
  attribute_value attributes "package_id" = Ok package_id ->
  attribute_value attributes "service" = Ok service ->
  baseurl_of config = Ok baseurl ->
  attribute_value attributes "outcome" = Ok (PStr "SUCCESS") ->
  ms [package_id; service; baseurl; PStr "SUCCESS"] = Ok found ->
  py_len found = Ok 0%nat ->
  us [attributes; config] = Ok u ->
  es [attributes; config] = Ok v ->
  let upserts :=
    [ELog "Message received.";
     ECall "get_config" [config_path env];
     ECall "matching_events" [package_id; service; baseurl; PStr "SUCCESS"];
     ECall "update_package" [attributes; config];
     ECall "update_events" [attributes; config]] in
  lambda_handler (mock "get_config" cs) (mock "matching_events" ms)
    (mock "update_package" us) (mock "update_events" es) ns
    [event; context] env tr
  = match ns [service; package_id; config] env (tr ++ upserts)%list with
    | (Ok _, t) => (Ok PNone, t)
    | (Err e, t) => (Err e, t)
    end.
Proof.
  intros Hcs Ha Hp Hs Hb Ho Hms Hlen Hus Hes upserts.
  unfold lambda_handler, def2, lambda_handler_body.
  rewrite bind_emit. unfold bind at 1, full_config_path. fold (config_path env).
  rewrite bind_mock, <- app_assoc, Hcs. cbn [app].
  rewrite bind_message_attributes, Ha.
  rewrite bind_item_value, Hp, bind_item_value, Hs, bind_zodiac_baseurl, Hb.
  rewrite bind_item_value, Ho, bind_mock, Hms, bind_lift, Hlen.
  cbn [Nat.eqb]. rewrite bind_mock, <- app_assoc, Hus. cbn [app].
  rewrite bind_mock, <- app_assoc, Hes. cbn [app].
  rewrite bind_bind, bind_lift.
  pose proof (declared_again _ _ Ho) as Hd.
  destruct (py_get attributes "outcome" (PDict [])) as [o|]; [|discriminate].
  rewrite bind_lift, Hd. cbn [py_eq String.eqb Ascii.eqb Bool.eqb].
  rewrite bind_item_value, Hs, bind_item_value, Hp.
  unfold bind at 1. subst upserts.
  rewrite <- !app_assoc. cbn [app].
  destruct (ns [service; package_id; config] env _) as [[r|e] t]; reflexivity.
Qed.

(** C6.  The configuration has no [SERVICE_START_SNS_TOPIC] and the service
    has an entry in the routing table: the lookup of the topic raises
    [KeyError] inside the [try] block, the [except KeyError] clause written
    for the routing table takes it, and [send_next_service_message] logs
    "No next service found" after "Starting service" and returns [None]
    without a publish.  Nothing reaches the caller: a handler that got as
    far as the trigger returns [None] as well. *)
Theorem missing_topic_key_is_swallowed :
  forall env (current_service : string) next_service settings,
    assoc current_service NEXT_SERVICE_MAP = Some next_service ->
    assoc "SERVICE_START_SNS_TOPIC" settings = None ->
    (forall tr, assume_role env tr "sns" = None) ->
    (forall tr package_id,
        send_next_service_message [PStr current_service; package_id; PDict settings] env tr
        = (Ok PNone, (tr ++ swallowed_trigger current_service next_service)%list))
    /\ (forall cs ms us es event context tr attributes package_id baseurl found u v,
           cs [config_path env] = Ok (PDict settings) ->
           message_attributes event = Ok attributes ->
           attribute_value attributes "package_id" = Ok package_id ->
           attribute_value attributes "service" = Ok (PStr current_service) ->
           baseurl_of (PDict settings) = Ok baseurl ->
           attribute_value attributes "outcome" = Ok (PStr "SUCCESS") ->
           ms [package_id; PStr current_service; baseurl; PStr "SUCCESS"] = Ok found ->
           py_len found = Ok 0%nat ->
           us [attributes; PDict settings] = Ok u ->
           es [attributes; PDict settings] = Ok v ->
           exists effects,
             lambda_handler_with_trigger cs ms us es [event; context] env tr
             = (Ok PNone, (tr ++ effects)%list)
             /\ filter is_publish effects = []).
Proof.
  intros env current_service next_service settings Hnext Hmissing Hrole.
  assert (Hswallowed : forall tr package_id,
             send_next_service_message
               [PStr current_service; package_id; PDict settings] env tr
             = (Ok PNone, (tr ++ swallowed_trigger current_service next_service)%list)).
  { intros tr package_id.
    rewrite (send_next_service_message_run _ _ _ _ _ _ Hnext). cbv zeta.
    rewrite Hrole. cbn [py_getitem]. rewrite Hmissing.
    unfold key_error, is_KeyError. cbn [exn_cls].
    unfold swallowed_trigger. rewrite <- !app_assoc. reflexivity. }
  split; [exact Hswallowed|].
  intros cs ms us es event context tr attributes package_id baseurl found u v
         Hcs Ha Hp Hs Hb Ho Hms Hlen Hus Hes.
  unfold lambda_handler_with_trigger.
  rewrite (lambda_handler_ends_with_trigger _ _ _ _ _ _ _ _ _ _ _ _ _ _ _ _ _
             Hcs Ha Hp Hs Hb Ho Hms Hlen Hus Hes).
  cbv zeta. rewrite Hswallowed.
  eexists. split; [rewrite <- app_assoc; reflexivity|].
  reflexivity.
Qed.

(** A success notification of [ursa_major], which is routed to [fornax], with
    the configuration of the tests, which holds the base URL only: the trigger
    returns [None], and so does the handler, with nothing published. *)
Lemma missing_topic_key_is_swallowed_witness :
  send_next_service_message [PStr "ursa_major"; PStr "123456789"; config_fixture]
    (calm_env [] []) []
  = (Ok PNone,
     [ELog "Starting service fornax"; EAssumeRole "sns";
      ELog "No next service found for ursa_major"])
  /\ exists effects,
      lambda_handler_with_trigger
        (fun _ => Ok config_fixture) (fun _ => Ok (PList []))
        (fun _ => Ok PNone) (fun _ => Ok PNone)
        [message "ursa_major" "SUCCESS"; PNone] (calm_env [] []) []
      = (Ok PNone, ([] ++ effects)%list)
      /\ filter is_publish effects = [].
Proof.
  destruct (missing_topic_key_is_swallowed (calm_env [] []) "ursa_major" (PStr "fornax")
              [("ZODIAC_BASEURL", PStr "https://zodiac.rockarch.org/api")]
              eq_refl eq_refl (fun _ => eq_refl))
    as [Htrigger Hhandler].
  split.
  - exact (Htrigger [] (PStr "123456789")).
  - exact (Hhandler
             (fun _ => Ok config_fixture) (fun _ => Ok (PList []))
             (fun _ => Ok PNone) (fun _ => Ok PNone)
             (message "ursa_major" "SUCCESS") PNone []
             (PDict [("package_id", attribute package_id_fixture);
                     ("service", attribute "ursa_major");
                     ("outcome", attribute "SUCCESS")])
             (PStr package_id_fixture) (PStr "https://zodiac.rockarch.org/api")
             (PList []) PNone PNone
             eq_refl eq_refl eq_refl eq_refl eq_refl eq_refl eq_refl eq_refl
             eq_refl eq_refl).
Defined.

(** * Further properties *)

(** ** HTTP dispatch *)

Lemma existsb_In_verb (verb : string) :
  In verb http_verbs -> existsb (String.eqb verb) http_verbs = true.
Proof.
  intros H. apply existsb_exists. exists verb. split; [exact H | apply String.eqb_refl].
Qed.

(** X1.  A call of [send_http_request] with an HTTP verb makes exactly one
    request, with [data] as its JSON body when [data] is truthy and with no
    body otherwise; it raises the transport's error, raises an HTTP error for
    a status from 400 to 599, and returns [None] in every other case. *)
Theorem send_http_request_one_request :
  forall env tr (verb : string) (url data : pyval),
    In verb http_verbs ->
    let body := if py_truthy data then Some data else None in
    send_http_request [url; PStr verb; data] env tr
    = (match http_send env tr verb url body with
       | Transport e => Err e
       | Response r =>
           if ((400 <=? status_code r) && (status_code r <? 600))%Z
           then Err (mkExn HTTPError "HTTP error response")
           else Ok PNone
       end, (tr ++ [EHttp verb url body])%list).
Proof.
  intros env tr verb url data Hverb body.
  unfold send_http_request, def3, send_http_request_body.
  assert (Hrequest : forall json,
             session_request (PStr verb) url json env tr
             = (match http_send env tr verb url json with
                | Transport e => Err e
                | Response r => Ok r
                end, (tr ++ [EHttp verb url json])%list)).
  { intros json. unfold session_request. rewrite (existsb_In_verb verb Hverb).
    reflexivity. }
  subst body. unfold bind at 1.
  destruct (py_truthy data); rewrite Hrequest;
    (destruct (http_send env tr verb url _) as [e|r]; [reflexivity|]);
    unfold bind, raise_for_status;
    destruct ((400 <=? status_code r) && (status_code r <? 600))%Z; reflexivity.
Qed.

(** A POST refused with 404, and a POST of an empty payload. *)
Lemma send_http_request_one_request_witness :
  send_http_request [PStr "https://zodiac.rockarch.org/api/events"; PStr "post";
                     PDict [("outcome", PStr "SUCCESS")]]
    (with_status 404 (calm_env [] [])) []
  = (Err (mkExn HTTPError "HTTP error response"),
     [EHttp "post" (PStr "https://zodiac.rockarch.org/api/events")
        (Some (PDict [("outcome", PStr "SUCCESS")]))])
  /\ send_http_request [PStr "https://zodiac.rockarch.org/api/events"; PStr "post";
                        PDict []]
       (calm_env [] []) []
     = (Ok PNone, [EHttp "post" (PStr "https://zodiac.rockarch.org/api/events") None]).
Proof.
  split.
  - exact (send_http_request_one_request (with_status 404 (calm_env [] [])) []
             "post" (PStr "https://zodiac.rockarch.org/api/events")
             (PDict [("outcome", PStr "SUCCESS")])
             (or_intror (or_introl eq_refl))).
  - exact (send_http_request_one_request (calm_env [] []) []
             "post" (PStr "https://zodiac.rockarch.org/api/events") (PDict [])
             (or_intror (or_introl eq_refl))).
Defined.

(** ** The package upsert *)

Lemma update_package_run h attributes config env tr :
  update_package h [attributes; config] env tr
  = match attribute_value attributes "package_id" with
    | Err e => (Err e, tr)
    | Ok package_id =>
    match py_get attributes "package_data" PNone with
    | Err e => (Err e, tr)
    | Ok present =>
    match (if py_truthy present then
             match attribute_value attributes "package_data" with
             | Err e => Err e
             | Ok raw =>
                 match json_loads env raw with
                 | Err e => Err e
                 | Ok parsed => Ok (Some parsed)
                 end
             end
           else Ok None) with
    | Err e => (Err e, tr)
    | Ok data =>
    match baseurl_of config with
    | Err e => (Err e, tr)
    | Ok baseurl =>
        discard (h [PStr (py_str baseurl ++ "/packages"); PStr "post";
                    package_payload package_id data] env tr)
    end end end end.
Proof.
  unfold update_package, def2, update_package_body.
  rewrite bind_item_value.
  destruct (attribute_value attributes "package_id") as [package_id|]; [|reflexivity].
  rewrite bind_lift.
  destruct (py_get attributes "package_data" PNone) as [present|]; [|reflexivity].
  destruct (py_truthy present).
  - rewrite bind_bind, bind_item_value.
    destruct (attribute_value attributes "package_data") as [raw|]; [|reflexivity].
    rewrite bind_bind. unfold bind at 1.
    destruct (json_loads env raw) as [parsed|]; [|reflexivity].
    unfold bind at 1, ret. rewrite bind_zodiac_baseurl.
    destruct (baseurl_of config) as [baseurl|]; [|reflexivity].
    unfold bind, discard, package_payload, ret. cbn [dict_set String.eqb Ascii.eqb Bool.eqb].
    destruct (h _ env tr) as [[v|e] t]; reflexivity.
  - unfold bind at 1, ret. rewrite bind_zodiac_baseurl.
    destruct (baseurl_of config) as [baseurl|]; [|reflexivity].
    unfold bind, discard, package_payload, ret.
    destruct (h _ env tr) as [[v|e] t]; reflexivity.
Qed.

(** X2.  [update_package] calls [send_http_request] exactly once, with the
    URL [{base}/packages], the method [post] and a body that holds the package
    id alone when the message has no (truthy) [package_data] attribute, and
    the package id with the parsed data when it has one; it returns [None]
    when the call returns and raises what the call raises.  When the data is
    not valid JSON the error of [json.loads] is raised and no call is made. *)
Theorem update_package_posts_package :
  forall h attributes config env tr package_id baseurl present,
    attribute_value attributes "package_id" = Ok package_id ->
    py_get attributes "package_data" PNone = Ok present ->
    baseurl_of config = Ok baseurl ->
    let url := PStr (py_str baseurl ++ "/packages") in
    (py_truthy present = false ->
     update_package h [attributes; config] env tr
     = discard (h [url; PStr "post"; PDict [("package_id", package_id)]] env tr))
    /\ (forall raw parsed,
           py_truthy present = true ->
           attribute_value attributes "package_data" = Ok raw ->
           json_loads env raw = Ok parsed ->
           update_package h [attributes; config] env tr
           = discard (h [url; PStr "post";
                         PDict [("package_id", package_id); ("package_data", parsed)]]
                        env tr))
    /\ (forall raw e,
           py_truthy present = true ->
           attribute_value attributes "package_data" = Ok raw ->
           json_loads env raw = Err e ->
           update_package h [attributes; config] env tr = (Err e, tr)).
Proof.
  intros h attributes config env tr package_id baseurl present Hid Hpresent Hbase url.
  rewrite update_package_run, Hid, Hpresent, Hbase. subst url.
  split; [|split].
  - intros ->. reflexivity.
  - intros raw parsed -> -> ->. reflexivity.
  - intros raw e -> -> ->. reflexivity.
Qed.

(** The two tests of the package upsert, and data that does not parse. *)
Lemma update_package_posts_package_witness :
  let parsed := PList [PBool true; PBool false] in
  let loads (raw : pyval) :=
    if py_eq raw (PStr "[true, false]") then Ok parsed
    else Err (mkExn ValueError "Expecting value") in
  let env := with_json_loads loads (calm_env [] []) in
  let h := mock "send_http_request" (fun _ => Ok PNone) in
  let url := PStr "https://zodiac.rockarch.org/api/packages" in
  update_package h [success_attributes; config_fixture] env []
  = (Ok PNone,
     [ECall "send_http_request"
        [url; PStr "post"; PDict [("package_id", PStr package_id_fixture)]]])
  /\ update_package h [attributes_with_data "[true, false]"; config_fixture] env []
     = (Ok PNone,
        [ECall "send_http_request"
           [url; PStr "post";
            PDict [("package_id", PStr package_id_fixture); ("package_data", parsed)]]])
  /\ update_package h [attributes_with_data "{"; config_fixture] env []
     = (Err (mkExn ValueError "Expecting value"), []).
Proof.
  intros parsed loads env h url. split; [|split].
  - exact (proj1 (update_package_posts_package h success_attributes config_fixture env []
                    (PStr package_id_fixture) (PStr "https://zodiac.rockarch.org/api")
                    PNone eq_refl eq_refl eq_refl) eq_refl).
  - exact (proj1 (proj2 (update_package_posts_package h
                           (attributes_with_data "[true, false]") config_fixture env []
                           (PStr package_id_fixture)
                           (PStr "https://zodiac.rockarch.org/api")
                           (attribute "[true, false]") eq_refl eq_refl eq_refl))
             (PStr "[true, false]") parsed eq_refl eq_refl eq_refl).
  - exact (proj2 (proj2 (update_package_posts_package h
                           (attributes_with_data "{") config_fixture env []
                           (PStr package_id_fixture)
                           (PStr "https://zodiac.rockarch.org/api")
                           (attribute "{") eq_refl eq_refl eq_refl))
             (PStr "{") (mkExn ValueError "Expecting value") eq_refl eq_refl eq_refl).
Defined.

(** X3.  In the module as shipped, [update_package] on a well-formed message
    and configuration makes exactly one HTTP request: a POST to
    [{base}/packages] whose JSON body is the package payload (never empty, so
    always sent).  It raises on a transport error or a status from 400 to 599
    and returns [None] otherwise. *)
Theorem shipped_update_package_posts_once :
  forall attributes config env tr package_id data baseurl,
    attribute_value attributes "package_id" = Ok package_id ->
    message_data env attributes = Ok data ->
    baseurl_of config = Ok baseurl ->
    let url := PStr (py_str baseurl ++ "/packages") in
    let payload := package_payload package_id data in
    Shipped.update_package [attributes; config] env tr
    = (match http_send env tr "post" url (Some payload) with
       | Transport e => Err e
       | Response r =>
           if ((400 <=? status_code r) && (status_code r <? 600))%Z
           then Err (mkExn HTTPError "HTTP error response")
           else Ok PNone
       end, (tr ++ [EHttp "post" url (Some payload)])%list).
Proof.
  intros attributes config env tr package_id data baseurl Hid Hdata Hbase url payload.
  unfold Shipped.update_package. rewrite update_package_run, Hid.
  unfold message_data in Hdata.
  destruct (py_get attributes "package_data" PNone) as [present|]; [|discriminate].
  rewrite Hdata, Hbase. fold url payload.
  assert (Hverb : In "post" http_verbs) by (right; left; reflexivity).
  rewrite (send_http_request_one_request env tr "post" url payload Hverb).
  unfold discard. cbn [fst snd]. subst payload. unfold package_payload. cbn [py_truthy].
  destruct (http_send env tr "post" url _) as [e|r]; [reflexivity|].
  destruct ((400 <=? status_code r) && (status_code r <? 600))%Z; reflexivity.
Qed.

Lemma shipped_update_package_posts_once_witness :
  let url := PStr "https://zodiac.rockarch.org/api/packages" in
  let payload := PDict [("package_id", PStr package_id_fixture)] in
  Shipped.update_package [success_attributes; config_fixture] (calm_env [] []) []
  = (Ok PNone, [EHttp "post" url (Some payload)])
  /\ Shipped.update_package [success_attributes; config_fixture]
       (with_status 500 (calm_env [] [])) []
     = (Err (mkExn HTTPError "HTTP error response"), [EHttp "post" url (Some payload)]).
Proof.
  intros url payload. split.
  - exact (shipped_update_package_posts_once success_attributes config_fixture
             (calm_env [] []) [] (PStr package_id_fixture) None
             (PStr "https://zodiac.rockarch.org/api") eq_refl eq_refl eq_refl).
  - exact (shipped_update_package_posts_once success_attributes config_fixture
             (with_status 500 (calm_env [] [])) [] (PStr package_id_fixture) None
             (PStr "https://zodiac.rockarch.org/api") eq_refl eq_refl eq_refl).
Defined.

(** ** The event upsert, given what the lookup returns *)

Section update_events_given_lookup.
Variables me cid h : binding.
Variables attributes config : pyval.
Variables (env : Env) (tr tr1 : Trace).
Variables a_package_id a_service baseurl : pyval.

Hypothesis Hpackage : py_getitem attributes (PStr "package_id") = Ok a_package_id.
Hypothesis Hservice : py_getitem attributes (PStr "service") = Ok a_service.
Hypothesis Hbase : baseurl_of config = Ok baseurl.

Lemma update_events_lookup package_events :
  me [a_package_id; a_service; baseurl] env tr = (Ok package_events, tr1) ->
  update_events me cid h [attributes; config] env tr
  = match py_len package_events with
    | Err e => (Err e, tr1)
    | Ok n =>
        if Nat.leb n 1 then
          match attribute_value attributes "outcome" with
          | Err e => (Err e, tr1)
          | Ok outcome =>
          match py_getitem a_service (PStr "Value") with
          | Err e => (Err e, tr1)
          | Ok service =>
          match py_getitem a_package_id (PStr "Value") with
          | Err e => (Err e, tr1)
          | Ok package =>
              bind (if Nat.eqb n 1
                    then bind (index package_events 0) (fun e => item e "identifier")
                    else cid [])
                   (fun identifier =>
                      bind (h [PStr (py_str baseurl ++ "/events"); PStr "post";
                               PDict [("outcome", outcome); ("service", service);
                                      ("package", package); ("identifier", identifier)]])
                           (fun _ => ret PNone)) env tr1
          end end end
        else
          (Err (mkExn PlainException
                  ("Got more than one matching event for package "
                   ++ py_str a_package_id ++ ", found " ++ nat_str n)), tr1)
    end.
Proof.
  intros Hlookup.
  unfold update_events, def2, update_events_body.
  rewrite bind_item, Hpackage, bind_item, Hservice, bind_zodiac_baseurl, Hbase.
  rewrite (bind_ok _ _ _ _ _ _ Hlookup), bind_lift.
  destruct (py_len package_events) as [n|]; [|reflexivity].
  destruct (Nat.leb n 1).
  - rewrite bind_item_value.
    destruct (attribute_value attributes "outcome") as [outcome|]; [|reflexivity].
    rewrite bind_item_value. unfold attribute_value at 1. rewrite Hservice.
    destruct (py_getitem a_service (PStr "Value")) as [service|]; [|reflexivity].
    rewrite bind_item_value. unfold attribute_value at 1. rewrite Hpackage.
    destruct (py_getitem a_package_id (PStr "Value")) as [package|]; [|reflexivity].
    apply bind_ext; [reflexivity|]. intros identifier t.
    rewrite bind_zodiac_baseurl, Hbase. reflexivity.
  - rewrite bind_item, Hpackage. reflexivity.
Qed.
End update_events_given_lookup.

(** X4.  When the lookup of existing events returns an empty list,
    [update_events] generates one identifier and calls [send_http_request]
    once, with [{base}/events], [post] and the four fields outcome, service,
    package and that identifier; it returns [None] when the call returns. *)
Theorem update_events_creates :
  forall me cid h attributes config env tr tr1 tr2
         a_package_id a_service baseurl outcome service package identifier,
    py_getitem attributes (PStr "package_id") = Ok a_package_id ->
    py_getitem attributes (PStr "service") = Ok a_service ->
    baseurl_of config = Ok baseurl ->
    attribute_value attributes "outcome" = Ok outcome ->
    py_getitem a_service (PStr "Value") = Ok service ->
    py_getitem a_package_id (PStr "Value") = Ok package ->
    me [a_package_id; a_service; baseurl] env tr = (Ok (PList []), tr1) ->
    cid [] env tr1 = (Ok identifier, tr2) ->
    update_events me cid h [attributes; config] env tr
    = discard (h [PStr (py_str baseurl ++ "/events"); PStr "post";
                  PDict [("outcome", outcome); ("service", service);
                         ("package", package); ("identifier", identifier)]]
                 env tr2).
Proof.
  intros me cid h attributes config env tr tr1 tr2 a_package_id a_service baseurl
         outcome service package identifier Hp Hs Hb Ho Hsv Hpv Hlookup Hid.
  rewrite (update_events_lookup me cid h _ _ _ _ _ _ _ _ Hp Hs Hb _ Hlookup).
  cbn [py_len length Nat.leb Nat.eqb]. rewrite Ho, Hsv, Hpv.
  rewrite (bind_ok _ _ _ _ _ _ Hid).
  unfold bind, discard, ret.
  destruct (h _ env tr2) as [[v|e] t]; reflexivity.
Qed.

(** The test that creates an event: nothing on record, identifier generated. *)
Lemma update_events_creates_witness :
  update_events (mock "matching_events" (fun _ => Ok (PList [])))
    construct_event_id (mock "send_http_request" (fun _ => Ok PNone))
    [success_attributes; config_fixture] (calm_env [] []) []
  = (Ok PNone,
     [ECall "matching_events"
        [attribute package_id_fixture; attribute "validation";
         PStr "https://zodiac.rockarch.org/api"];
      EUuid4;
      ECall "send_http_request"
        [PStr "https://zodiac.rockarch.org/api/events"; PStr "post";
         PDict [("outcome", PStr "SUCCESS"); ("service", PStr "validation");
                ("package", PStr package_id_fixture);
                ("identifier", PStr "0b1f6c3e-5d0a-4c57-9a51-7f3c52f1f2aa")]]]).
Proof.
  exact (update_events_creates
           (mock "matching_events" (fun _ => Ok (PList [])))
           construct_event_id (mock "send_http_request" (fun _ => Ok PNone))
           success_attributes config_fixture (calm_env [] []) []
           [ECall "matching_events"
              [attribute package_id_fixture; attribute "validation";
               PStr "https://zodiac.rockarch.org/api"]]
           [ECall "matching_events"
              [attribute package_id_fixture; attribute "validation";
               PStr "https://zodiac.rockarch.org/api"]; EUuid4]
           (attribute package_id_fixture) (attribute "validation")
           (PStr "https://zodiac.rockarch.org/api")
           (PStr "SUCCESS") (PStr "validation") (PStr package_id_fixture)
           (PStr "0b1f6c3e-5d0a-4c57-9a51-7f3c52f1f2aa")
           eq_refl eq_refl eq_refl eq_refl eq_refl eq_refl eq_refl eq_refl).
Defined.

(** X5.  When the lookup returns exactly one event, [update_events] sends
    that event's identifier again, with the message's outcome, service and
    package, and generates no identifier: [construct_event_id] is not
    called. *)
Theorem update_events_reuses :
  forall me cid h attributes config env tr tr1
         a_package_id a_service baseurl outcome service package existing identifier,
    py_getitem attributes (PStr "package_id") = Ok a_package_id ->
    py_getitem attributes (PStr "service") = Ok a_service ->
    baseurl_of config = Ok baseurl ->
    attribute_value attributes "outcome" = Ok outcome ->
    py_getitem a_service (PStr "Value") = Ok service ->
    py_getitem a_package_id (PStr "Value") = Ok package ->
    me [a_package_id; a_service; baseurl] env tr = (Ok (PList [existing]), tr1) ->
    py_getitem existing (PStr "identifier") = Ok identifier ->
    update_events me cid h [attributes; config] env tr
    = discard (h [PStr (py_str baseurl ++ "/events"); PStr "post";
                  PDict [("outcome", outcome); ("service", service);
                         ("package", package); ("identifier", identifier)]]
                 env tr1).
Proof.
  intros me cid h attributes config env tr tr1 a_package_id a_service baseurl
         outcome service package existing identifier Hp Hs Hb Ho Hsv Hpv Hlookup Hid.
  rewrite (update_events_lookup me cid h _ _ _ _ _ _ _ _ Hp Hs Hb _ Hlookup).
  cbn [py_len length Nat.leb Nat.eqb]. rewrite Ho, Hsv, Hpv.
  rewrite bind_bind. unfold index. rewrite bind_lift. cbn [py_getitem].
  change (list_index [existing] 0) with (Ok existing). cbv beta iota.
  rewrite bind_item, Hid.
  unfold bind, discard, ret.
  destruct (h _ env tr1) as [[v|e] t]; reflexivity.
Qed.

(** The test that updates an event: one on record, its identifier kept. *)
Lemma update_events_reuses_witness :
  let existing := event_record "FAILURE" "validation" package_id_fixture "123456789" in
  update_events (mock "matching_events" (fun _ => Ok (PList [existing])))
    construct_event_id (mock "send_http_request" (fun _ => Ok PNone))
    [success_attributes; config_fixture] (calm_env [] []) []
  = (Ok PNone,
     [ECall "matching_events"
        [attribute package_id_fixture; attribute "validation";
         PStr "https://zodiac.rockarch.org/api"];
      ECall "send_http_request"
        [PStr "https://zodiac.rockarch.org/api/events"; PStr "post";
         PDict [("outcome", PStr "SUCCESS"); ("service", PStr "validation");
                ("package", PStr package_id_fixture);
                ("identifier", PStr "123456789")]]]).
Proof.
  intros existing.
  exact (update_events_reuses
           (mock "matching_events" (fun _ => Ok (PList [existing])))
           construct_event_id (mock "send_http_request" (fun _ => Ok PNone))
           success_attributes config_fixture (calm_env [] []) []
           [ECall "matching_events"
              [attribute package_id_fixture; attribute "validation";
               PStr "https://zodiac.rockarch.org/api"]]
           (attribute package_id_fixture) (attribute "validation")
           (PStr "https://zodiac.rockarch.org/api")
           (PStr "SUCCESS") (PStr "validation") (PStr package_id_fixture)
           existing (PStr "123456789")
           eq_refl eq_refl eq_refl eq_refl eq_refl eq_refl eq_refl eq_refl).
Defined.

(** X6.  When the lookup returns two events or more, [update_events] raises
    an exception whose message holds the [package_id] attribute of the
    message and the number of events returned; it generates no identifier
    and calls [send_http_request] not at all. *)
Theorem update_events_refuses :
  forall me cid h attributes config env tr tr1
         a_package_id a_service baseurl first second others,
    py_getitem attributes (PStr "package_id") = Ok a_package_id ->
    py_getitem attributes (PStr "service") = Ok a_service ->
    baseurl_of config = Ok baseurl ->
    me [a_package_id; a_service; baseurl] env tr
    = (Ok (PList (first :: second :: others)), tr1) ->
    update_events me cid h [attributes; config] env tr
    = (Err (mkExn PlainException
              ("Got more than one matching event for package "
               ++ py_str a_package_id ++ ", found "
               ++ nat_str (2 + length others))), tr1).
Proof.
  intros me cid h attributes config env tr tr1 a_package_id a_service baseurl
         first second others Hp Hs Hb Hlookup.
  rewrite (update_events_lookup me cid h _ _ _ _ _ _ _ _ Hp Hs Hb _ Hlookup).
  reflexivity.
Qed.

Lemma update_events_refuses_witness :
  let found := [event_record "FAILURE" "validation" package_id_fixture "abc";
                event_record "SUCCESS" "validation" package_id_fixture "def";
                event_record "SUCCESS" "validation" package_id_fixture "ghi"] in
  update_events (mock "matching_events" (fun _ => Ok (PList found)))
    construct_event_id (mock "send_http_request" (fun _ => Ok PNone))
    [success_attributes; config_fixture] (calm_env [] []) []
  = (Err (mkExn PlainException
            ("Got more than one matching event for package "
             ++ "{'Type': 'String', 'Value': '20f8da26e268418ead4aa2365f816a08'}"
             ++ ", found 3")),
     [ECall "matching_events"
        [attribute package_id_fixture; attribute "validation";
         PStr "https://zodiac.rockarch.org/api"]]).
Proof.
  intros found.
  exact (update_events_refuses
           (mock "matching_events" (fun _ => Ok (PList found)))
           construct_event_id (mock "send_http_request" (fun _ => Ok PNone))
           success_attributes config_fixture (calm_env [] []) []
           [ECall "matching_events"
              [attribute package_id_fixture; attribute "validation";
               PStr "https://zodiac.rockarch.org/api"]]
           (attribute package_id_fixture) (attribute "validation")
           (PStr "https://zodiac.rockarch.org/api")
           _ _ _ eq_refl eq_refl eq_refl eq_refl).
Defined.

(** ** The lookup, given what the dispatcher returns *)

Lemma matching_events_after_get h package_id service_name baseurl outcome env tr
      package_events tr1 :
  h [PStr (py_str baseurl ++ "/packages/" ++ py_str package_id ++ "/events"); PStr "get"]
    env tr = (Ok package_events, tr1) ->
  matching_events h [package_id; service_name; baseurl; outcome] env tr
  = (match py_iter package_events with
     | Err e => Err e
     | Ok l =>
         match comprehension
                 (if py_truthy outcome
                  then service_and_outcome_match service_name outcome
                  else service_matches service_name) l with
         | Err e => Err e
         | Ok kept => Ok (PList kept)
         end
     end, tr1).
Proof.
  intros Hget. unfold matching_events, def3_1, matching_events_body.
  rewrite (bind_ok _ _ _ _ _ _ Hget).
  destruct (py_truthy outcome); apply select_run.
Qed.

Lemma readable_condition service_name outcome e :
  readable service_name outcome e ->
  (if py_truthy outcome
   then service_and_outcome_match service_name outcome
   else service_matches service_name) e
  = Ok (record_matches service_name outcome e).
Proof.
  intros (s & Hs & Ho). unfold record_matches.
  destruct (py_truthy outcome).
  - unfold service_and_outcome_match. rewrite Hs.
    destruct (py_eq s service_name); [|reflexivity].
    destruct (Ho eq_refl eq_refl) as [o ->]. reflexivity.
  - unfold service_matches. rewrite Hs, andb_true_r. reflexivity.
Qed.

Lemma comprehension_records cond (keep : pyval -> bool) (l : list pyval) :
  Forall (fun e => cond e = Ok (keep e)) l ->
  comprehension cond l = Ok (filter keep l).
Proof.
  induction 1 as [|e l He _ IH]; [reflexivity|].
  cbn [comprehension filter]. rewrite He, IH. destruct (keep e); reflexivity.
Qed.

Lemma comprehension_stops cond (keep : pyval -> bool) (good rest : list pyval) bad x :
  Forall (fun e => cond e = Ok (keep e)) good ->
  cond bad = Err x ->
  comprehension cond (good ++ bad :: rest) = Err x.
Proof.
  intros Hgood Hbad. induction Hgood as [|e l He _ IH].
  - cbn [app comprehension]. rewrite Hbad. reflexivity.
  - cbn [app comprehension]. rewrite He, IH. reflexivity.
Qed.

(** X7.  Whatever [send_http_request] is bound to: when the GET of
    [{base}/packages/{package_id}/events] returns a list of records with the
    fields that are read, [matching_events] returns the records of the given
    service, in the order of the list, restricted to the given outcome when
    the outcome is truthy; with no outcome, [None] or an empty one the
    outcome of a record plays no part. *)
Theorem matching_events_selects :
  forall h package_id service_name baseurl outcome env tr events tr1,
    h [PStr (py_str baseurl ++ "/packages/" ++ py_str package_id ++ "/events");
       PStr "get"] env tr = (Ok (PList events), tr1) ->
    Forall (readable service_name outcome) events ->
    matching_events h [package_id; service_name; baseurl; outcome] env tr
    = (Ok (PList (filter (record_matches service_name outcome) events)), tr1)
    /\ (py_truthy outcome = false ->
        matching_events h [package_id; service_name; baseurl] env tr
        = (Ok (PList (filter (fun e => match py_getitem e (PStr "service") with
                                       | Ok s => py_eq s service_name
                                       | Err _ => false
                                       end) events)), tr1)).
Proof.
  intros h package_id service_name baseurl outcome env tr events tr1 Hget Hreadable.
  assert (Hcond : Forall (fun e =>
            (if py_truthy outcome
             then service_and_outcome_match service_name outcome
             else service_matches service_name) e
            = Ok (record_matches service_name outcome e)) events).
  { eapply Forall_impl; [|exact Hreadable]. intros e. apply readable_condition. }
  split.
  - rewrite (matching_events_after_get _ _ _ _ _ _ _ _ _ Hget). cbn [py_iter].
    rewrite (comprehension_records _ _ _ Hcond). reflexivity.
  - intros Hfalsy.
    change (matching_events h [package_id; service_name; baseurl])
      with (matching_events h [package_id; service_name; baseurl; PNone]).
    rewrite (matching_events_after_get _ _ _ _ _ _ _ _ _ Hget). cbn [py_iter py_truthy].
    erewrite comprehension_records; [reflexivity|].
    eapply Forall_impl; [|exact Hreadable].
    intros e (s & Hs & _). unfold service_matches. rewrite Hs. reflexivity.
Qed.

(** The test of the lookup: one record of [fornax] among the package's
    events; and a lookup by outcome, where a record of another service does
    not need an outcome. *)
Lemma matching_events_selects_witness :
  let events := [event_record "SUCCESS" "ursa_major" package_id_fixture "a";
                 event_record "FAILURE" "fornax" package_id_fixture "b";
                 PDict [("service", PStr "aquarius")];
                 event_record "SUCCESS" "fornax" package_id_fixture "c"] in
  let h := mock "send_http_request" (zodiac_answers events) in
  let get := ECall "send_http_request" [PStr "baseurl/packages/package_id/events"; PStr "get"] in
  matching_events h [PStr "package_id"; PStr "fornax"; PStr "baseurl"; PStr "SUCCESS"]
    (calm_env [] []) []
  = (Ok (PList [event_record "SUCCESS" "fornax" package_id_fixture "c"]), [get])
  /\ matching_events h [PStr "package_id"; PStr "fornax"; PStr "baseurl"] (calm_env [] []) []
     = (Ok (PList [event_record "FAILURE" "fornax" package_id_fixture "b";
                   event_record "SUCCESS" "fornax" package_id_fixture "c"]), [get]).
Proof.
  intros events h get.
  assert (Hyes : Forall (readable (PStr "fornax") (PStr "SUCCESS")) events).
  { repeat constructor; eexists; (split; [reflexivity|]); intros _ H;
      try discriminate H; eexists; reflexivity. }
  assert (Hno : Forall (readable (PStr "fornax") PNone) events).
  { repeat constructor; eexists; (split; [reflexivity|]); intros H; discriminate H. }
  split.
  - exact (proj1 (matching_events_selects h (PStr "package_id") (PStr "fornax")
                    (PStr "baseurl") (PStr "SUCCESS") (calm_env [] []) [] events [get]
                    eq_refl Hyes)).
  - exact (proj2 (matching_events_selects h (PStr "package_id") (PStr "fornax")
                    (PStr "baseurl") PNone (calm_env [] []) [] events [get]
                    eq_refl Hno) eq_refl).
Defined.

(** X8.  The lookup fails as a whole when what it gets cannot be read: a
    result of the GET that is [None] raises [TypeError]; a record without a
    [service] field raises the error of reading it, whatever the records
    after it. *)
Theorem matching_events_unreadable :
  forall h package_id service_name baseurl outcome env tr tr1,
    let get := [PStr (py_str baseurl ++ "/packages/" ++ py_str package_id ++ "/events");
                PStr "get"] in
    (h get env tr = (Ok PNone, tr1) ->
     matching_events h [package_id; service_name; baseurl; outcome] env tr
     = (Err (mkExn TypeError "object is not iterable"), tr1))
    /\ (forall good bad rest e,
           h get env tr = (Ok (PList (good ++ bad :: rest)), tr1) ->
           Forall (readable service_name outcome) good ->
           py_getitem bad (PStr "service") = Err e ->
           matching_events h [package_id; service_name; baseurl; outcome] env tr
           = (Err e, tr1)).
Proof.
  intros h package_id service_name baseurl outcome env tr tr1 get. split.
  - intros Hget. rewrite (matching_events_after_get _ _ _ _ _ _ _ _ _ Hget).
    reflexivity.
  - intros good bad rest e Hget Hgood Hbad.
    rewrite (matching_events_after_get _ _ _ _ _ _ _ _ _ Hget). cbn [py_iter].
    erewrite comprehension_stops with (keep := record_matches service_name outcome);
      [reflexivity | | ].
    + eapply Forall_impl; [|exact Hgood]. intros x. apply readable_condition.
    + destruct (py_truthy outcome);
        [unfold service_and_outcome_match | unfold service_matches];
        rewrite Hbad; reflexivity.
Qed.

Lemma matching_events_unreadable_witness :
  let unnamed := PDict [("outcome", PStr "SUCCESS")] in
  let events := [event_record "SUCCESS" "fornax" package_id_fixture "a"; unnamed;
                 event_record "SUCCESS" "fornax" package_id_fixture "c"] in
  let get := ECall "send_http_request" [PStr "baseurl/packages/package_id/events"; PStr "get"] in
  matching_events (mock "send_http_request" (fun _ => Ok PNone))
    [PStr "package_id"; PStr "fornax"; PStr "baseurl"; PNone] (calm_env [] []) []
  = (Err (mkExn TypeError "object is not iterable"), [get])
  /\ matching_events (mock "send_http_request" (zodiac_answers events))
       [PStr "package_id"; PStr "fornax"; PStr "baseurl"; PNone] (calm_env [] []) []
     = (Err (mkExn KeyError "'service'"), [get]).
Proof.
  intros unnamed events get. split.
  - exact (proj1 (matching_events_unreadable
                    (mock "send_http_request" (fun _ => Ok PNone))
                    (PStr "package_id") (PStr "fornax") (PStr "baseurl") PNone
                    (calm_env [] []) [] [get]) eq_refl).
  - refine (proj2 (matching_events_unreadable
                     (mock "send_http_request" (zodiac_answers events))
                     (PStr "package_id") (PStr "fornax") (PStr "baseurl") PNone
                     (calm_env [] []) [] [get])
              [event_record "SUCCESS" "fornax" package_id_fixture "a"] unnamed
              [event_record "SUCCESS" "fornax" package_id_fixture "c"]
              (mkExn KeyError "'service'") eq_refl _ eq_refl).
    repeat constructor. eexists. split; [reflexivity|]. intros H; discriminate H.
Defined.

(** ** The handler and the functions it calls *)

Ltac leaf effects :=
  exists effects; split; [cbn [snd]; rewrite <- ?app_assoc; reflexivity|].

Ltac culprit :=
  let name := fresh "name" in
  let args := fresh "args" in
  let e := fresh "e" in
  let Hin := fresh "Hin" in
  let Hanswer := fresh "Hanswer" in
  intros name args e Hin Hanswer; cbn [In app] in Hin;
  repeat match goal with
         | H : _ \/ _ |- _ => destruct H
         | H : False |- _ => contradiction
         | H : ECall _ _ = ECall _ _ |- _ => inversion H; clear H; subst
         | H : _ = ECall _ _ |- _ => discriminate H
         end;
  cbn [answer_of String.eqb Ascii.eqb Bool.eqb] in Hanswer;
  first [congruence | split; [cbn [fst]; congruence | reflexivity]].

(** X9.  Whatever the functions the handler calls answer, it calls them in
    one order, each at most once: [get_config], [matching_events],
    [update_package], [update_events], [send_next_service_message]; the calls
    made are an initial segment of that list.  When the handler returns, it
    returns [None]. *)
Theorem lambda_handler_call_order :
  forall cs ms us es ns event context env tr,
  exists effects,
    snd (mocked_lambda_handler cs ms us es ns [event; context] env tr)
    = (tr ++ effects)%list
    /\ is_prefix (call_names effects) handler_calls = true
    /\ (forall v,
           fst (mocked_lambda_handler cs ms us es ns [event; context] env tr) = Ok v ->
           v = PNone).
Proof.
  intros cs ms us es ns event context env tr.
  rewrite mocked_lambda_handler_run. cbv zeta.
  set (start := [ELog "Message received."; ECall "get_config" [config_path env]]).
  destruct (cs [config_path env]) as [config|];
    [|leaf start; split; [reflexivity | discriminate]].
  destruct (message_attributes event) as [attributes|];
    [|leaf start; split; [reflexivity | discriminate]].
  destruct (attribute_value attributes "package_id") as [package_id|];
    [|leaf start; split; [reflexivity | discriminate]].
  destruct (attribute_value attributes "service") as [service|];
    [|leaf start; split; [reflexivity | discriminate]].
  destruct (baseurl_of config) as [baseurl|];
    [|leaf start; split; [reflexivity | discriminate]].
  destruct (attribute_value attributes "outcome") as [outcome|];
    [|leaf start; split; [reflexivity | discriminate]].
  set (check := ECall "matching_events" [package_id; service; baseurl; outcome]).
  destruct (ms [package_id; service; baseurl; outcome]) as [found|];
    [|leaf (start ++ [check])%list; split; [reflexivity | discriminate]].
  destruct (py_len found) as [[|n]|].
  - destruct (us [attributes; config]);
      [|eexists; split; [cbn [snd]; rewrite <- app_assoc; reflexivity|];
        split; [reflexivity | discriminate]].
    destruct (es [attributes; config]);
      [|eexists; split; [cbn [snd]; rewrite <- app_assoc; reflexivity|];
        split; [reflexivity | discriminate]].
    destruct (py_eq outcome (PStr "SUCCESS")).
    + eexists; split; [cbn [snd]; rewrite <- app_assoc; reflexivity|].
      split; [reflexivity|]. cbn [fst].
      destruct (ns [service; package_id; config]); congruence.
    + eexists; split; [cbn [snd]; rewrite <- app_assoc; reflexivity|].
      split; [reflexivity|]. cbn [fst]. congruence.
  - eexists; split; [cbn [snd]; rewrite <- app_assoc; reflexivity|].
    split; [reflexivity|]. cbn [fst]. congruence.
  - leaf (start ++ [check])%list. split; [reflexivity | discriminate].
Qed.

(** X10.  An exception raised by a function the handler calls leaves the
    handler unchanged, and ends it: the call that raised is the last thing
    the handler did. *)
Theorem lambda_handler_propagates :
  forall cs ms us es ns event context env tr,
  exists effects,
    snd (mocked_lambda_handler cs ms us es ns [event; context] env tr)
    = (tr ++ effects)%list
    /\ forall name args e,
        In (ECall name args) effects ->
        answer_of cs ms us es ns name args = Err e ->
        fst (mocked_lambda_handler cs ms us es ns [event; context] env tr) = Err e
        /\ last effects (ELog "") = ECall name args.
Proof.
  intros cs ms us es ns event context env tr.
  rewrite mocked_lambda_handler_run. cbv zeta.
  set (start := [ELog "Message received."; ECall "get_config" [config_path env]]).
  destruct (cs [config_path env]) as [config|] eqn:Hcs;
    [|leaf start; subst start; culprit].
  destruct (message_attributes event) as [attributes|];
    [|leaf start; subst start; culprit].
  destruct (attribute_value attributes "package_id") as [package_id|];
    [|leaf start; subst start; culprit].
  destruct (attribute_value attributes "service") as [service|];
    [|leaf start; subst start; culprit].
  destruct (baseurl_of config) as [baseurl|];
    [|leaf start; subst start; culprit].
  destruct (attribute_value attributes "outcome") as [outcome|];
    [|leaf start; subst start; culprit].
  set (check := ECall "matching_events" [package_id; service; baseurl; outcome]).
  destruct (ms [package_id; service; baseurl; outcome]) as [found|] eqn:Hms;
    [|leaf (start ++ [check])%list; subst start check; culprit].
  destruct (py_len found) as [[|n]|].
  - destruct (us [attributes; config]) eqn:Hus;
      [|eexists; split; [cbn [snd]; rewrite <- app_assoc; reflexivity|];
        subst start check; culprit].
    destruct (es [attributes; config]) eqn:Hes;
      [|eexists; split; [cbn [snd]; rewrite <- app_assoc; reflexivity|];
        subst start check; culprit].
    destruct (py_eq outcome (PStr "SUCCESS")).
    + eexists; split; [cbn [snd]; rewrite <- app_assoc; reflexivity|].
      subst start check.
      destruct (ns [service; package_id; config]) eqn:Hns; culprit.
    + eexists; split; [cbn [snd]; rewrite <- app_assoc; reflexivity|].
      subst start check. culprit.
  - eexists; split; [cbn [snd]; rewrite <- app_assoc; reflexivity|].
    subst start check. culprit.
  - leaf (start ++ [check])%list. subst start check. culprit.
Qed.

(** X11.  A duplicate: when the check returns a non-empty result, the
    handler logs ["Duplicate event found"] and returns [None], having called
    [get_config] and [matching_events] and nothing else.  The check is given
    the package id, the service, the base URL without its trailing "/" and
    the outcome of the message. *)
Theorem lambda_handler_duplicate_returns :
  forall cs ms us es ns event context env tr
         config attributes package_id service baseurl outcome found n,
    cs [config_path env] = Ok config ->
    message_attributes event = Ok attributes ->
    attribute_value attributes "package_id" = Ok package_id ->
    attribute_value attributes "service" = Ok service ->
    baseurl_of config = Ok baseurl ->
    attribute_value attributes "outcome" = Ok outcome ->
    ms [package_id; service; baseurl; outcome] = Ok found ->
    py_len found = Ok (S n) ->
    mocked_lambda_handler cs ms us es ns [event; context] env tr
    = (Ok PNone,
       (tr ++ [ELog "Message received.";
               ECall "get_config" [config_path env];
               ECall "matching_events" [package_id; service; baseurl; outcome];
               ELog "Duplicate event found"])%list).
Proof.
  intros cs ms us es ns event context env tr config attributes package_id service
         baseurl outcome found n Hcs Ha Hp Hs Hb Ho Hms Hlen.
  rewrite mocked_lambda_handler_run. cbv zeta.
  rewrite Hcs, Ha, Hp, Hs, Hb, Ho, Hms, Hlen, <- app_assoc. reflexivity.
Qed.

(** The second half of the test of a success notification. *)
Lemma lambda_handler_duplicate_returns_witness :
  handler_of_the_tests [PDict [("foo", PStr "bar")]]
    [message "validation" "SUCCESS"; PNone] (calm_env [] []) []
  = (Ok PNone,
     [ELog "Message received.";
      ECall "get_config" [PStr "/dev/digital_ingest"];
      ECall "matching_events"
        [PStr package_id_fixture; PStr "validation";
         PStr "https://zodiac.rockarch.org/api"; PStr "SUCCESS"];
      ELog "Duplicate event found"]).
Proof.
  exact (lambda_handler_duplicate_returns
           (fun _ => Ok config_fixture) (fun _ => Ok (PList [PDict [("foo", PStr "bar")]]))
           (fun _ => Ok PNone) (fun _ => Ok PNone) (fun _ => Ok PNone)
           (message "validation" "SUCCESS") PNone (calm_env [] []) []
           config_fixture
           (PDict [("package_id", attribute package_id_fixture);
                   ("service", attribute "validation");
                   ("outcome", attribute "SUCCESS")])
           (PStr package_id_fixture) (PStr "validation")
           (PStr "https://zodiac.rockarch.org/api") (PStr "SUCCESS")
           (PList [PDict [("foo", PStr "bar")]]) 0
           eq_refl eq_refl eq_refl eq_refl eq_refl eq_refl eq_refl eq_refl).
Defined.

(** X12.  In the module as shipped every invocation of the handler raises,
    and all it has done by then is log the reception and load the
    configuration: no request reaches the API and nothing is published. *)
Theorem shipped_lambda_handler_stops_at_check :
  forall event context env tr,
    (exists e,
        Shipped.lambda_handler [event; context] env tr
        = (Err e, snd (get_config [config_path env] env
                         (tr ++ [ELog "Message received."])%list)))
    /\ exists effects,
        snd (Shipped.lambda_handler [event; context] env tr) = (tr ++ effects)%list
        /\ filter is_http effects = []
        /\ filter is_publish effects = [].
Proof.
  intros event context env tr.
  assert (Hrun : exists e,
             Shipped.lambda_handler [event; context] env tr
             = (Err e, snd (get_config [config_path env] env
                              (tr ++ [ELog "Message received."])%list))).
  { unfold Shipped.lambda_handler, lambda_handler, def2, lambda_handler_body.
    rewrite bind_emit. unfold bind at 1, full_config_path. fold (config_path env).
    destruct (get_config [config_path env] env (tr ++ [ELog "Message received."])%list)
      as [[config|e] t] eqn:Hc;
      [rewrite (bind_ok _ _ _ _ _ _ Hc) | rewrite (bind_err _ _ _ _ _ _ Hc); eauto].
    cbn [snd].
    rewrite bind_message_attributes.
    destruct (message_attributes event) as [attributes|]; [|eauto].
    rewrite bind_item_value.
    destruct (attribute_value attributes "package_id") as [package_id|]; [|eauto].
    rewrite bind_item_value.
    destruct (attribute_value attributes "service") as [service|]; [|eauto].
    rewrite bind_zodiac_baseurl.
    destruct (baseurl_of config) as [baseurl|]; [|eauto].
    rewrite bind_item_value.
    destruct (attribute_value attributes "outcome") as [outcome|]; [|eauto].
    destruct (shipped_matching_events_fails [package_id; service; baseurl; outcome] env t)
      as [e He].
    rewrite (bind_err _ _ _ _ _ _ He). eauto. }
  split; [exact Hrun|].
  destruct Hrun as [e ->]. cbn [snd].
  rewrite get_config_run. cbv zeta.
  assert (Hreport : forall x, filter is_http (report x) = []
                              /\ filter is_publish (report x) = [])
    by (intros; split; reflexivity).
  destruct (assume_role env _ "ssm") as [x|].
  { exists ([ELog "Message received."; EAssumeRole "ssm"] ++ report x)%list.
    split; [rewrite <- !app_assoc; reflexivity | split; reflexivity]. }
  set (read := ESsmGetParametersByPath (config_path env) false true).
  assert (Hquiet : (forall x,
             exists effects,
               (((tr ++ [ELog "Message received."]) ++ [EAssumeRole "ssm"]) ++ [read])
                 ++ report x = tr ++ effects
               /\ filter is_http effects = [] /\ filter is_publish effects = [])%list).
  { intros x.
    exists ([ELog "Message received."; EAssumeRole "ssm"; read] ++ report x)%list.
    split; [rewrite <- !app_assoc; reflexivity | split; reflexivity]. }
  destruct (ssm_get_parameters_by_path env _ _) as [pd|x]; [|cbn [snd]; apply Hquiet].
  destruct (py_get pd "Parameters" (PList [])) as [ps|x]; [|cbn [snd]; apply Hquiet].
  destruct (py_iter ps) as [l|x]; [|cbn [snd]; apply Hquiet].
  destruct (load_params l []) as [c [x|]]; cbn [snd]; [apply Hquiet|].
  exists [ELog "Message received."; EAssumeRole "ssm"; read].
  split; [rewrite <- !app_assoc; reflexivity | split; reflexivity].
Qed.

(** X13.  The configuration loader swallows its errors, and the handler pays
    for it at once: when the loaded configuration has no [ZODIAC_BASEURL], a
    well-formed message makes the handler raise [KeyError] for that key
    before it calls anything else. *)
Theorem lambda_handler_needs_baseurl :
  forall me up ue ns event context env tr attributes package_id service configuration t,
    get_config [config_path env] env (tr ++ [ELog "Message received."])%list
    = (Ok (PDict configuration), t) ->
    assoc "ZODIAC_BASEURL" configuration = None ->
    message_attributes event = Ok attributes ->
    attribute_value attributes "package_id" = Ok package_id ->
    attribute_value attributes "service" = Ok service ->
    lambda_handler get_config me up ue ns [event; context] env tr
    = (Err (mkExn KeyError "'ZODIAC_BASEURL'"), t).
Proof.
  intros me up ue ns event context env tr attributes package_id service configuration t
         Hc Hkey Ha Hp Hs.
  unfold lambda_handler, def2, lambda_handler_body.
  rewrite bind_emit. unfold bind at 1, full_config_path. fold (config_path env).
  rewrite (bind_ok _ _ _ _ _ _ Hc), bind_message_attributes, Ha.
  rewrite bind_item_value, Hp, bind_item_value, Hs, bind_zodiac_baseurl.
  unfold baseurl_of. cbn [py_getitem]. rewrite Hkey. reflexivity.
Qed.

(** The role cannot be assumed: the configuration is empty and the handler
    stops on the missing key. *)
Lemma lambda_handler_needs_baseurl_witness :
  let refused := mkExn (OtherError "ClientError") "AccessDenied" in
  Shipped.lambda_handler [message "validation" "SUCCESS"; PNone]
    (with_role_error refused (calm_env [] [])) []
  = (Err (mkExn KeyError "'ZODIAC_BASEURL'"),
     [ELog "Message received."; EAssumeRole "ssm";
      EPrint "Encountered an error loading config from SSM."; ETraceback refused]).
Proof.
  intros refused.
  exact (lambda_handler_needs_baseurl
           Shipped.matching_events Shipped.update_package Shipped.update_events
           send_next_service_message
           (message "validation" "SUCCESS") PNone
           (with_role_error refused (calm_env [] [])) []
           (PDict [("package_id", attribute package_id_fixture);
                   ("service", attribute "validation");
                   ("outcome", attribute "SUCCESS")])
           (PStr package_id_fixture) (PStr "validation") []
           [ELog "Message received."; EAssumeRole "ssm";
            EPrint "Encountered an error loading config from SSM."; ETraceback refused]
           eq_refl eq_refl eq_refl eq_refl eq_refl).
Defined.

(** ** The configuration loader, seen from outside *)

(** X14.  [get_config] assumes the role once and then reads the parameter
    store at most once: under the path it was given, not recursively, with
    decryption.  When the role cannot be assumed it reads nothing.  It prints
    its message and the traceback once when something failed, and nothing
    else ever happens. *)
Theorem get_config_reads_once :
  forall env tr (path : pyval),
  exists reported,
    (reported = [] \/ exists e, reported = report e)
    /\ snd (get_config [path] env tr)
       = (tr ++ EAssumeRole "ssm"
             :: match assume_role env tr "ssm" with
                | Some e => report e
                | None => ESsmGetParametersByPath path false true :: reported
                end)%list.
Proof.
  intros env tr path. rewrite get_config_run. cbv zeta.
  destruct (assume_role env tr "ssm") as [e|].
  { exists []. split; [left; reflexivity|]. cbn [snd].
    rewrite <- app_assoc. reflexivity. }
  assert (Hfail : forall (c : pyval) e,
             exists reported,
               (reported = [] \/ exists x, reported = report x)
               /\ snd (Ok c, (((tr ++ [EAssumeRole "ssm"])
                                 ++ [ESsmGetParametersByPath path false true])
                                ++ report e)%list)
                  = (tr ++ EAssumeRole "ssm"
                        :: ESsmGetParametersByPath path false true :: reported)%list).
  { intros c e. exists (report e). split; [right; eauto|]. cbn [snd].
    rewrite <- !app_assoc. reflexivity. }
  destruct (ssm_get_parameters_by_path env _ path) as [pd|e]; [|apply Hfail].
  destruct (py_get pd "Parameters" (PList [])) as [ps|e]; [|apply Hfail].
  destruct (py_iter ps) as [l|e]; [|apply Hfail].
  destruct (load_params l []) as [c [e|]]; [apply Hfail|].
  exists []. split; [left; reflexivity|]. cbn [snd].
  rewrite <- !app_assoc. reflexivity.
Qed.

Lemma last_segment_has_no_slash (s : string) :
  contains_char slash (last_segment s) = false.
Proof.
  induction s as [|a s' IH]; [reflexivity|].
  cbn [last_segment].
  destruct (contains_char slash s') eqn:Hs; [exact IH|].
  destruct (Ascii.eqb a slash) eqn:Ha; [exact Hs|].
  cbn [contains_char]. rewrite Ha, Hs. reflexivity.
Qed.

Lemma last_segment_suffix (s : string) :
  exists prefix, s = prefix ++ last_segment s.
Proof.
  induction s as [|a s' [prefix IH]]; [exists ""; reflexivity|].
  cbn [last_segment].
  destruct (contains_char slash s').
  - exists (String a prefix). cbn [String.append]. rewrite <- IH. reflexivity.
  - destruct (Ascii.eqb a slash).
    + exists (String a ""). reflexivity.
    + exists "". reflexivity.
Qed.

Lemma keys_dict_set {V} (k k' : string) (v : V) (d : list (string * V)) :
  In k (map fst (dict_set k' v d)) -> k = k' \/ In k (map fst d).
Proof.
  induction d as [|[k0 v0] d IH]; cbn [dict_set map fst In].
  - intros [H|[]]. left; congruence.
  - destruct (String.eqb k' k0) eqn:E; cbn [map fst In].
    + intros [H|H]; [left; congruence | right; right; exact H].
    + intros [H|H]; [right; left; exact H|].
      destruct (IH H) as [H'|H']; [left | right; right]; exact H'.
Qed.

Lemma keys_settings_from (k : string) entries configuration :
  In k (map fst (settings_from configuration entries)) ->
  In k (map fst configuration)
  \/ exists entry, In entry entries /\ k = last_segment (fst entry).
Proof.
  revert configuration. unfold settings_from.
  induction entries as [|entry entries IH]; intros configuration H; [left; exact H|].
  cbn [fold_left] in H. destruct (IH _ H) as [H'|(entry' & Hin & Hk)].
  - destruct (keys_dict_set _ _ _ _ H') as [Hk|Hk].
    + right. exists entry. split; [left; reflexivity | exact Hk].
    + left. exact Hk.
  - right. exists entry'. split; [right; exact Hin | exact Hk].
Qed.

(** X15.  Every key of the configuration [get_config] returns is the end of
    the name of one of the parameters read, and has no "/" in it. *)
Theorem get_config_keys :
  forall env tr (path param_details : pyval) params entries,
    assume_role env tr "ssm" = None ->
    ssm_get_parameters_by_path env (tr ++ [EAssumeRole "ssm"])%list path
    = Ok param_details ->
    py_get param_details "Parameters" (PList []) = Ok (PList params) ->
    Forall2 is_parameter params entries ->
    exists configuration,
      fst (get_config [path] env tr) = Ok (PDict configuration)
      /\ forall k,
          In k (map fst configuration) ->
          contains_char slash k = false
          /\ exists name value prefix,
              In (name, value) entries /\ name = prefix ++ k.
Proof.
  intros env tr path param_details params entries Hrole Hssm Hparams Hentries.
  rewrite get_config_run. cbv zeta. rewrite Hrole, Hssm, Hparams. cbn [py_iter].
  rewrite <- (app_nil_r params), (load_params_parameters _ _ _ _ Hentries).
  cbn [load_params fst]. eexists. split; [reflexivity|].
  intros k Hk. destruct (keys_settings_from _ _ _ Hk) as [[]|([name value] & Hin & ->)].
  cbn [fst]. split; [apply last_segment_has_no_slash|].
  destruct (last_segment_suffix name) as [prefix Hname].
  exists name, value, prefix. split; [exact Hin | exact Hname].
Qed.

Lemma get_config_keys_witness :
  let params := [parameter "/dev/digital_ingest/ZODIAC_BASEURL"
                   "https://zodiac.rockarch.org/api/";
                 parameter "SERVICE_START_SNS_TOPIC" "arn:aws:sns:us-east-1:123:start"] in
  exists configuration,
    fst (get_config [PStr "/dev/digital_ingest"] (calm_env params []) [])
    = Ok (PDict configuration)
    /\ forall k,
        In k (map fst configuration) ->
        contains_char slash k = false
        /\ exists name value prefix,
            In (name, value)
               [("/dev/digital_ingest/ZODIAC_BASEURL",
                 PStr "https://zodiac.rockarch.org/api/");
                ("SERVICE_START_SNS_TOPIC", PStr "arn:aws:sns:us-east-1:123:start")]
            /\ name = prefix ++ k.
Proof.
  intros params.
  apply (get_config_keys (calm_env params []) [] (PStr "/dev/digital_ingest")
           (PDict [("Parameters", PList params)]) params
           [("/dev/digital_ingest/ZODIAC_BASEURL",
             PStr "https://zodiac.rockarch.org/api/");
            ("SERVICE_START_SNS_TOPIC", PStr "arn:aws:sns:us-east-1:123:start")]
           eq_refl eq_refl eq_refl).
  repeat constructor.
Defined.

(** ** The trigger, seen from outside *)

(** X16.  Whatever it is given, [send_next_service_message] publishes at most
    once and sends nothing to the API; it publishes only for a service that
    has an entry in the routing table. *)
Theorem send_next_service_message_at_most_once :
  forall (current_service package_id config : pyval) env tr,
  exists effects,
    snd (send_next_service_message [current_service; package_id; config] env tr)
    = (tr ++ effects)%list
    /\ (length (filter is_publish effects) <= 1)%nat
    /\ filter is_http effects = []
    /\ (filter is_publish effects <> [] ->
        exists next_service,
          py_getitem (PDict NEXT_SERVICE_MAP) current_service = Ok next_service).
Proof.
  intros current_service package_id config env tr.
  unfold send_next_service_message, def3, send_next_service_message_body, try_except.
  rewrite bind_lift.
  destruct (py_getitem (PDict NEXT_SERVICE_MAP) current_service) as [next_service|e].
  2:{ destruct (is_KeyError e).
      - eexists. split; [reflexivity|]. cbn. repeat split; auto. congruence.
      - exists []. split; [cbn [snd]; rewrite app_nil_r; reflexivity|].
        cbn. repeat split; auto. congruence. }
  rewrite bind_emit. unfold bind at 1, get_client_with_role.
  set (started := ELog ("Starting service " ++ py_str next_service)).
  set (swallowed := ELog ("No next service found for " ++ py_str current_service)).
  destruct (assume_role env _ "sns") as [e|].
  { destruct (is_KeyError e).
    - exists [started; EAssumeRole "sns"; swallowed].
      split; [cbn [snd emit bind ret]; rewrite <- !app_assoc; reflexivity|].
      cbn. repeat split; auto. congruence.
    - exists [started; EAssumeRole "sns"].
      split; [cbn [snd]; rewrite <- !app_assoc; reflexivity|].
      cbn. repeat split; auto. congruence. }
  rewrite bind_item.
  destruct (py_getitem config (PStr "SERVICE_START_SNS_TOPIC")) as [topic|e].
  2:{ destruct (is_KeyError e).
      - exists [started; EAssumeRole "sns"; swallowed].
        split; [cbn [snd emit bind ret]; rewrite <- !app_assoc; reflexivity|].
        cbn. repeat split; auto. congruence.
      - exists [started; EAssumeRole "sns"].
        split; [cbn [snd]; rewrite <- !app_assoc; reflexivity|].
        cbn. repeat split; auto. congruence. }
  unfold bind at 1, client_publish. cbn [String.eqb Ascii.eqb Bool.eqb].
  match goal with
  | |- context [sns_publish env ?t topic ?m ?a] =>
      set (published := EPublish topic m a);
      destruct (sns_publish env t topic m a) as [v|e]
  end.
  - eexists [started; EAssumeRole "sns"; published; _].
    split; [cbn [snd emit bind ret]; rewrite <- !app_assoc; reflexivity|].
    cbn. repeat split; eauto.
  - destruct (is_KeyError e).
    + exists [started; EAssumeRole "sns"; published; swallowed].
      split; [cbn [snd emit bind ret]; rewrite <- !app_assoc; reflexivity|].
      cbn. repeat split; eauto.
    + exists [started; EAssumeRole "sns"; published].
      split; [cbn [snd]; rewrite <- !app_assoc; reflexivity|].
      cbn. repeat split; eauto.
Qed.

(** ** The base URL *)

Lemma rstrip_no_trailing (s : string) : ends_with slash (rstrip_char slash s) = false.
Proof.
  induction s as [|a s' IH]; [reflexivity|].
  cbn [rstrip_char].
  destruct (Ascii.eqb a slash) eqn:Ha;
    destruct (rstrip_char slash s') as [|b r] eqn:Hr; cbn [andb String.eqb];
    try reflexivity.
  - exact IH.
  - cbn [ends_with]. exact Ha.
  - exact IH.
Qed.

Lemma rstrip_removes_slashes (s : string) :
  exists n, s = rstrip_char slash s ++ slashes n.
Proof.
  induction s as [|a s' [n IH]]; [exists 0; reflexivity|].
  cbn [rstrip_char].
  destruct (Ascii.eqb a slash) eqn:Ha;
    destruct (rstrip_char slash s') as [|b r] eqn:Hr; cbn [andb String.eqb].
  - exists (S n). apply Ascii.eqb_eq in Ha. subst a. cbn [String.append slashes].
    rewrite IH at 1. reflexivity.
  - exists n. cbn [String.append]. rewrite IH at 1. reflexivity.
  - exists n. cbn [String.append]. rewrite IH at 1. reflexivity.
  - exists n. cbn [String.append]. rewrite IH at 1. reflexivity.
Qed.

(** X17.  The base URL the functions append their paths to is the configured
    [ZODIAC_BASEURL] without the "/" characters that end it, and nothing else
    is removed: it never ends in "/", so a URL built from it has a single
    "/" at the join. *)
Theorem baseurl_has_no_trailing_slash :
  forall config env tr b tr',
    zodiac_baseurl config env tr = (Ok b, tr') ->
    tr' = tr
    /\ exists configured stripped n,
        py_getitem config (PStr "ZODIAC_BASEURL") = Ok (PStr configured)
        /\ b = PStr stripped
        /\ configured = stripped ++ slashes n
        /\ ends_with slash stripped = false.
Proof.
  intros config env tr b tr' H.
  unfold zodiac_baseurl in H. rewrite bind_item in H.
  destruct (py_getitem config (PStr "ZODIAC_BASEURL")) as [c|]; [|discriminate].
  unfold lift in H. destruct c; cbn [py_rstrip_slash] in H; try discriminate.
  inversion H; subst. split; [reflexivity|].
  destruct (rstrip_removes_slashes s) as [n Hn].
  exists s, (rstrip_char slash s), n.
  repeat split; [exact Hn | apply rstrip_no_trailing].
Qed.

Lemma baseurl_has_no_trailing_slash_witness :
  let config := PDict [("ZODIAC_BASEURL", PStr "https://zodiac.rockarch.org/api//")] in
  zodiac_baseurl config (calm_env [] []) []
  = (Ok (PStr "https://zodiac.rockarch.org/api"), [])
  /\ exists configured stripped n,
      py_getitem config (PStr "ZODIAC_BASEURL") = Ok (PStr configured)
      /\ PStr "https://zodiac.rockarch.org/api" = PStr stripped
      /\ configured = stripped ++ slashes n
      /\ ends_with slash stripped = false.
Proof.
  intros config. split; [reflexivity|].
  exact (proj2 (baseurl_has_no_trailing_slash config (calm_env [] []) []
                  (PStr "https://zodiac.rockarch.org/api") [] eq_refl)).
Defined.

(** ** More of the handler *)

(** X18.  A message that is no duplicate: when the check returns an empty
    result and both upserts return, the handler has called [update_package]
    and then [update_events], each with the attributes of the message and the
    loaded configuration, and, for the outcome ["SUCCESS"] only, the trigger
    with the service, the package id and the configuration.  It returns
    [None], or raises what the trigger raises. *)
Theorem lambda_handler_fresh_message :
  forall cs ms us es ns event context env tr
         config attributes package_id service baseurl outcome found u v,
    cs [config_path env] = Ok config ->
    message_attributes event = Ok attributes ->
    attribute_value attributes "package_id" = Ok package_id ->
    attribute_value attributes "service" = Ok service ->
    baseurl_of config = Ok baseurl ->
    attribute_value attributes "outcome" = Ok outcome ->
    ms [package_id; service; baseurl; outcome] = Ok found ->
    py_len found = Ok 0%nat ->
    us [attributes; config] = Ok u ->
    es [attributes; config] = Ok v ->
    let upserts :=
      [ELog "Message received.";
       ECall "get_config" [config_path env];
       ECall "matching_events" [package_id; service; baseurl; outcome];
       ECall "update_package" [attributes; config];
       ECall "update_events" [attributes; config]] in
    mocked_lambda_handler cs ms us es ns [event; context] env tr
    = if py_eq outcome (PStr "SUCCESS")
      then (match ns [service; package_id; config] with
            | Ok _ => Ok PNone
            | Err e => Err e
            end,
            (tr ++ upserts
                ++ [ECall "send_next_service_message" [service; package_id; config]])%list)
      else (Ok PNone, (tr ++ upserts)%list).
Proof.
  intros cs ms us es ns event context env tr config attributes package_id service
         baseurl outcome found u v Hcs Ha Hp Hs Hb Ho Hms Hlen Hus Hes upserts.
  rewrite mocked_lambda_handler_run. cbv zeta.
  rewrite Hcs, Ha, Hp, Hs, Hb, Ho, Hms, Hlen, Hus, Hes. subst upserts.
  destruct (py_eq outcome (PStr "SUCCESS")); rewrite <- !app_assoc; reflexivity.
Qed.

(** The tests of a success and of a failure notification. *)
Lemma lambda_handler_fresh_message_witness :
  let attributes_of outcome :=
    PDict [("package_id", attribute package_id_fixture);
           ("service", attribute "validation");
           ("outcome", attribute outcome)] in
  let upserts outcome :=
    [ELog "Message received.";
     ECall "get_config" [PStr "/dev/digital_ingest"];
     ECall "matching_events"
       [PStr package_id_fixture; PStr "validation";
        PStr "https://zodiac.rockarch.org/api"; PStr outcome];
     ECall "update_package" [attributes_of outcome; config_fixture];
     ECall "update_events" [attributes_of outcome; config_fixture]] in
  handler_of_the_tests [] [message "validation" "SUCCESS"; PNone] (calm_env [] []) []
  = (Ok PNone,
     (upserts "SUCCESS"
        ++ [ECall "send_next_service_message"
              [PStr "validation"; PStr package_id_fixture; config_fixture]])%list)
  /\ handler_of_the_tests [] [message "validation" "FAILURE"; PNone] (calm_env [] []) []
     = (Ok PNone, upserts "FAILURE").
Proof.
  intros attributes_of upserts. split.
  - exact (lambda_handler_fresh_message
             (fun _ => Ok config_fixture) (fun _ => Ok (PList []))
             (fun _ => Ok PNone) (fun _ => Ok PNone) (fun _ => Ok PNone)
             (message "validation" "SUCCESS") PNone (calm_env [] []) []
             config_fixture (attributes_of "SUCCESS")
             (PStr package_id_fixture) (PStr "validation")
             (PStr "https://zodiac.rockarch.org/api") (PStr "SUCCESS")
             (PList []) PNone PNone
             eq_refl eq_refl eq_refl eq_refl eq_refl eq_refl eq_refl eq_refl
             eq_refl eq_refl).
  - exact (lambda_handler_fresh_message
             (fun _ => Ok config_fixture) (fun _ => Ok (PList []))
             (fun _ => Ok PNone) (fun _ => Ok PNone) (fun _ => Ok PNone)
             (message "validation" "FAILURE") PNone (calm_env [] []) []
             config_fixture (attributes_of "FAILURE")
             (PStr package_id_fixture) (PStr "validation")
             (PStr "https://zodiac.rockarch.org/api") (PStr "FAILURE")
             (PList []) PNone PNone
             eq_refl eq_refl eq_refl eq_refl eq_refl eq_refl eq_refl eq_refl
             eq_refl eq_refl).
Defined.

(** X19.  An event from which the message attributes cannot be read (no
    [Records], an empty list of records, no [Sns] or no [MessageAttributes])
    makes the handler raise the error of that read, once the configuration
    is loaded and before anything else is called. *)
Theorem lambda_handler_unreadable_event :
  forall gc me up ue ns event context env tr config t e,
    gc [config_path env] env (tr ++ [ELog "Message received."])%list = (Ok config, t) ->
    message_attributes event = Err e ->
    lambda_handler gc me up ue ns [event; context] env tr = (Err e, t).
Proof.
  intros gc me up ue ns event context env tr config t e Hgc Ha.
  unfold lambda_handler, def2, lambda_handler_body.
  rewrite bind_emit. unfold bind at 1, full_config_path. fold (config_path env).
  rewrite (bind_ok _ _ _ _ _ _ Hgc), bind_message_attributes, Ha. reflexivity.
Qed.

(** An event with no record. *)
Lemma lambda_handler_unreadable_event_witness :
  Shipped.lambda_handler [PDict [("Records", PList [])]; PNone] (calm_env [] []) []
  = (Err (mkExn IndexError "list index out of range"),
     [ELog "Message received."; EAssumeRole "ssm";
      ESsmGetParametersByPath (PStr "/dev/digital_ingest") false true]).
Proof.
  exact (lambda_handler_unreadable_event
           get_config Shipped.matching_events Shipped.update_package
           Shipped.update_events send_next_service_message
           (PDict [("Records", PList [])]) PNone (calm_env [] []) []
           (PDict [])
           [ELog "Message received."; EAssumeRole "ssm";
            ESsmGetParametersByPath (PStr "/dev/digital_ingest") false true]
           (mkExn IndexError "list index out of range") eq_refl eq_refl).
Defined.

(** X20.  Without a usable [ZODIAC_BASEURL] (the key is missing, or its value
    is not a string) neither upsert calls anything: [update_events] raises
    before it looks for existing events, [update_package] before it posts. *)
Theorem upserts_need_baseurl :
  forall me cid h attributes config env tr e,
    baseurl_of config = Err e ->
    (forall a_package_id a_service,
        py_getitem attributes (PStr "package_id") = Ok a_package_id ->
        py_getitem attributes (PStr "service") = Ok a_service ->
        update_events me cid h [attributes; config] env tr = (Err e, tr))
    /\ (forall package_id data,
           attribute_value attributes "package_id" = Ok package_id ->
           message_data env attributes = Ok data ->
           update_package h [attributes; config] env tr = (Err e, tr)).
Proof.
  intros me cid h attributes config env tr e Hbase. split.
  - intros a_package_id a_service Hp Hs.
    unfold update_events, def2, update_events_body.
    rewrite bind_item, Hp, bind_item, Hs, bind_zodiac_baseurl, Hbase. reflexivity.
  - intros package_id data Hp Hdata.
    rewrite update_package_run, Hp. unfold message_data in Hdata.
    destruct (py_get attributes "package_data" PNone) as [present|]; [|discriminate].
    rewrite Hdata, Hbase. reflexivity.
Qed.

Lemma upserts_need_baseurl_witness :
  let h := mock "send_http_request" (fun _ => Ok PNone) in
  let me := mock "matching_events" (fun _ => Ok (PList [])) in
  update_events me construct_event_id h [success_attributes; PDict []] (calm_env [] []) []
  = (Err (mkExn KeyError "'ZODIAC_BASEURL'"), [])
  /\ update_package h [success_attributes; PDict [("ZODIAC_BASEURL", PNone)]]
       (calm_env [] []) []
     = (Err (mkExn AttributeError "object has no attribute 'rstrip'"), []).
Proof.
  intros h me. split.
  - exact (proj1 (upserts_need_baseurl me construct_event_id h success_attributes
                    (PDict []) (calm_env [] []) []
                    (mkExn KeyError "'ZODIAC_BASEURL'") eq_refl)
             (attribute package_id_fixture) (attribute "validation") eq_refl eq_refl).
  - exact (proj2 (upserts_need_baseurl me construct_event_id h success_attributes
                    (PDict [("ZODIAC_BASEURL", PNone)]) (calm_env [] []) []
                    (mkExn AttributeError "object has no attribute 'rstrip'") eq_refl)
             (PStr package_id_fixture) None eq_refl eq_refl).
Defined.

(** The event upsert fails: the handler fails with the same exception, and
    the trigger is not reached. *)
Lemma lambda_handler_propagates_witness :
  let refused := mkExn HTTPError "HTTP error response" in
  fst (mocked_lambda_handler (fun _ => Ok config_fixture) (fun _ => Ok (PList []))
         (fun _ => Ok PNone) (fun _ => Err refused) (fun _ => Ok PNone)
         [message "validation" "SUCCESS"; PNone] (calm_env [] []) [])
  = Err refused.
Proof.
  intros refused.
  destruct (lambda_handler_propagates
              (fun _ => Ok config_fixture) (fun _ => Ok (PList []))
              (fun _ => Ok PNone) (fun _ => Err refused) (fun _ => Ok PNone)
              (message "validation" "SUCCESS") PNone (calm_env [] []) [])
    as (effects & Htrace & Hraised).
  vm_compute in Htrace. subst effects.
  refine (proj1 (Hraised "update_events" _ refused _ eq_refl)).
  do 4 right. left. reflexivity.
Defined.
